(** * LeadParser (Vercel app): scorer, scrape route, store, export, stats

    A shallow embedding of the TypeScript route handlers of the Vercel
    application:

    - [calculateLeadScore] and the [POST /api/scrape] handler,
    - the [GET /api/export] handler,
    - the [GET /api/stats] handler,
    - [getTier] of the dashboard page.

    JavaScript strings are embedded as [string] (sequences of 8-bit
    characters; [toLowerCase] acts on the ASCII letters).  Numbers that the
    code only compares and counts are [Z]; the rating, a decimal fraction,
    is a rational [Q] (comparisons of finite doubles are comparisons of the
    rationals they denote).  An optional JSON property is an [option]. *)

From Stdlib Require Import ZArith QArith Qround List Lia Bool Sorted Permutation.
From Stdlib Require Import Strings.String Strings.Ascii Numbers.DecimalString.
From stdpp Require Import base gmap strings list.

Close Scope Q_scope.
Local Open Scope string_scope.
Local Open Scope list_scope.
Local Open Scope Z_scope.

(** ** JavaScript helpers *)

Module Js.

(** Truthiness of an optional string property: present and non-empty. *)
Definition truthy_str (v : option string) : bool :=
  match v with
  | Some s => negb (String.eqb s "")
  | None => false
  end.

(** [a || b] where [a] is an optional string. *)
Definition or_str (a b : option string) : option string :=
  if truthy_str a then a else b.

(** [a || d] closing a chain of optional strings with a string default. *)
Definition or_str_default (a : option string) (d : string) : string :=
  match a with
  | Some s => if String.eqb s "" then d else s
  | None => d
  end.

(** [a || 0] for an optional integer property: absent and [0] are falsy. *)
Definition num_or (v : option Z) (d : Z) : Z :=
  match v with
  | Some n => if n =? 0 then d else n
  | None => d
  end.

Definition or_num (a b : option Z) : option Z :=
  match a with
  | Some n => if n =? 0 then b else a
  | None => b
  end.

(** [a || 0] for an optional rational property. *)
Definition q_or (v : option Q) (d : Q) : Q :=
  match v with
  | Some q => if Qeq_bool q 0 then d else q
  | None => d
  end.

Definition or_q (a b : option Q) : option Q :=
  match a with
  | Some q => if Qeq_bool q 0 then b else a
  | None => b
  end.

Definition Qlt_bool (x y : Q) : bool := negb (Qle_bool y x).

(** [String.prototype.toLowerCase] on the ASCII letters. *)
Definition lower_ascii (c : ascii) : ascii :=
  let n := nat_of_ascii c in
  if andb (Nat.leb 65 n) (Nat.leb n 90) then ascii_of_nat (n + 32) else c.

Fixpoint toLowerCase (s : string) : string :=
  match s with
  | EmptyString => EmptyString
  | String c r => String (lower_ascii c) (toLowerCase r)
  end.

(** [s.includes(n)]: [n] occurs in [s] as a contiguous substring. *)
Fixpoint includes (s n : string) : bool :=
  if String.prefix n s then true
  else match s with
       | EmptyString => false
       | String _ r => includes r n
       end.

(** [Array.prototype.some]. *)
Definition some {A} (f : A -> bool) (l : list A) : bool := existsb f l.

End Js.

(** ** The number in [limit]

    The handler takes [limit] from the request body as it comes and uses
    it in arithmetic and comparisons only ([limit / 20],
    [leads.length >= limit], [leads.length < limit]); each of these first
    turns the value into a number.  [JsNum] is that number: a finite one
    (every finite double is a rational), an infinity (the JSON number
    [1e999] and its negative), or [NaN] (what a body such as a word in
    quotes turns into). *)
Inductive JsNum :=
| Fin (q : Q)
| PosInf
| NegInf
| NaN.

(** [n >= x] for an integer [n]. *)
Definition num_ge (n : Z) (x : JsNum) : bool :=
  match x with
  | Fin q => Qle_bool q (inject_Z n)
  | PosInf => false
  | NegInf => true
  | NaN => false
  end.

(** [n < x] for an integer [n]. *)
Definition num_lt (n : Z) (x : JsNum) : bool :=
  match x with
  | Fin q => Js.Qlt_bool (inject_Z n) q
  | PosInf => true
  | NegInf => false
  | NaN => false
  end.

(** [Math.ceil(x / 20)].  The quotient is taken exactly, where the code
    rounds it to a double.  Below 2^53 the two have the same ceiling,
    except for a positive [x] so small that the rounded quotient is 0:
    there the exact ceiling is 1 and the rounded one 0, and the loop,
    which tests them against a counter that is at least 1, takes the
    same way with either. *)
Definition ceil_div20 (x : JsNum) : JsNum :=
  match x with
  | Fin q => Fin (inject_Z (Qceiling (q / 20)))
  | PosInf => PosInf
  | NegInf => NegInf
  | NaN => NaN
  end.

(** ** Objects returned by the Places API

    One record serves for a text-search result ([place]), for the result
    of a details request ([details]) and for their spread
    [{ ...place, ...details }].  A text-search result carries its
    [place_id]; the details request does not ask for that field, so the
    [place_id] of a details object is never read. *)

Record PlaceObj := {
  place_id : string;
  name : option string;
  formatted_phone_number : option string;
  website : option string;
  formatted_address : option string;
  vicinity : option string;
  url : option string;
  rating : option Q;
  user_ratings_total : option Z
}.

(** [{ ...a, ...b }]: a property of [b] that is present overrides [a]'s. *)
Definition over {A} (a b : option A) : option A :=
  match b with Some _ => b | None => a end.

Definition spread (a b : PlaceObj) : PlaceObj := {|
  place_id := place_id a;
  name := over (name a) (name b);
  formatted_phone_number := over (formatted_phone_number a) (formatted_phone_number b);
  website := over (website a) (website b);
  formatted_address := over (formatted_address a) (formatted_address b);
  vicinity := over (vicinity a) (vicinity b);
  url := over (url a) (url b);
  rating := over (rating a) (rating b);
  user_ratings_total := over (user_ratings_total a) (user_ratings_total b)
|}.

(** ** The scorer *)

Definition highValueNiches : list string :=
  ["plumbers"; "electricians"; "roofing"; "hvac"; "auto detailing"; "car detailing"].

Definition review_term (reviews : Z) : Z :=
  if reviews =? 0 then 10
  else if reviews <=? 10 then 8
  else if reviews <=? 25 then 5
  else if reviews <=? 50 then 3
  else 1.

Definition rating_term (r : Q) : Z :=
  if andb (Js.Qlt_bool 0 r) (Qle_bool r (7 # 2)) then 9
  else if andb (Js.Qlt_bool (7 # 2) r) (Qle_bool r (4 # 1)) then 4
  else 0.

Definition website_term (w : option string) : Z :=
  if negb (Js.truthy_str w) then 3 else 0.

Definition niche_term (niche : string) : Z :=
  if Js.some (fun n => Js.includes (Js.toLowerCase niche) n) highValueNiches
  then 7 else 0.

Definition calculateLeadScore (place : PlaceObj) (niche : string) : Z :=
  let score := 0 in
  let reviews := Js.num_or (user_ratings_total place) 0 in
  let rating := Js.q_or (rating place) 0 in
  let score := score + review_term reviews in
  let score := score + rating_term rating in
  let score := score + website_term (website place) in
  let score := score + niche_term niche in
  Z.min score 30.

(** [getTier] of the dashboard, reduced to its label. *)
Definition getTier (score : Z) : string :=
  if 18 <=? score then "HOT"
  else if 12 <=? score then "WARM"
  else "MED".

(** ** Leads and the key-value store *)

(** The object literal built in [POST /api/scrape].  [lead_name] is
    [details.name || place.name] with the empty string standing for an
    absent name (the export renders both as the empty cell). *)
Record Lead := {
  id : string;
  lead_name : string;
  phone : string;
  niche : string;
  city : string;
  state : string;
  address : string;
  lead_rating : Q;
  review_count : Z;
  gmb_link : string;
  lead_website : string;
  lead_score : Z;
  date_added : string
}.

(** The two kinds of entries of the Vercel KV store: the values under the
    keys [lead:<id>] and the members of the set [leads:ids].  A value is
    written as [JSON.stringify(lead)] and read back parsed; the two are
    taken as inverse, so a value is the lead itself.  [ids] lists the
    members in the order in which [SMEMBERS] enumerates them; Redis leaves
    that order unspecified, so nothing below assumes more of it than that
    [kv_sadd] keeps it free of repetitions. *)
Record Store := {
  kv : gmap string Lead;
  ids : list string
}.

Definition lead_key (i : string) : string := "lead:" +:+ i.

Definition empty_store : Store := {| kv := ∅; ids := [] |}.

(** ** Outbound requests and the responses of the source *)

Inductive Request :=
| ReqSearch (pagetoken : option string)
| ReqDetails (pid : string).

Record PageData := {
  status : string;
  results : option (list PlaceObj);
  next_page_token : option string
}.

Record DetailsData := {
  d_status : string;
  d_result : PlaceObj
}.

(** What the source answers to the [n]-th outbound request of a run;
    [None] stands for a malformed answer: a [fetch] or a [response.json()]
    that rejects, or a body that decodes to [null], whose [status] cannot
    be read.  Each of them throws inside the handler's [try]. *)
Record Source := {
  textsearch : nat -> option string -> option PageData;
  place_details : nat -> string -> option DetailsData
}.

(** ** The handler monad: state, exceptions, and a fuel marker

    [faults] is consumed one entry per call to the KV client: [true] makes
    that call reject.  [log] records the outbound requests in order. *)
Record World := {
  store : Store;
  faults : list bool;
  log : list Request
}.

Inductive Outcome (A : Type) :=
| Ret (a : A)
| Throw
| Diverge.
Arguments Ret {A} a.
Arguments Throw {A}.
Arguments Diverge {A}.

Definition M (A : Type) : Type := World -> Outcome A * World.

Definition ret {A} (a : A) : M A := fun w => (Ret a, w).
Definition throw {A} : M A := fun w => (Throw, w).
Definition diverge {A} : M A := fun w => (Diverge, w).

Definition bind {A B} (m : M A) (k : A -> M B) : M B :=
  fun w => match m w with
           | (Ret a, w') => k a w'
           | (Throw, w') => (Throw, w')
           | (Diverge, w') => (Diverge, w')
           end.

(** [try { m } catch { h }]. *)
Definition try_catch {A} (m : M A) (h : M A) : M A :=
  fun w => match m w with
           | (Throw, w') => h w'
           | r => r
           end.

Notation "'do' x <- m ;; k" := (bind m (fun x => k))
  (at level 10, x name, m at level 99, k at level 200).
Notation "'run' m ;; k" := (bind m (fun _ => k))
  (at level 10, m at level 99, k at level 200).

(** Every KV call first consults the fault oracle. *)
Definition kv_call {A} (op : Store -> A * Store) : M A :=
  fun w =>
    match faults w with
    | true :: fs => (Throw, {| store := store w; faults := fs; log := log w |})
    | false :: fs =>
        let '(a, s) := op (store w) in
        (Ret a, {| store := s; faults := fs; log := log w |})
    | [] =>
        let '(a, s) := op (store w) in
        (Ret a, {| store := s; faults := []; log := log w |})
    end.

Definition kv_get (key : string) : M (option Lead) :=
  kv_call (fun s => (kv s !! key, s)).

Definition kv_set (key : string) (v : Lead) : M unit :=
  kv_call (fun s => (tt, {| kv := <[key := v]> (kv s); ids := ids s |})).

(** [SADD]: the member joins the set if it is not in it.  That it is
    put last is the model's choice of an enumeration, not a fact of the
    store. *)
Definition sadd (i : string) (l : list string) : list string :=
  if bool_decide (i ∈ l) then l else l ++ [i].

Definition kv_sadd (i : string) : M unit :=
  kv_call (fun s => (tt, {| kv := kv s; ids := sadd i (ids s) |})).

Definition kv_smembers : M (list string) :=
  kv_call (fun s => (ids s, s)).

(** The world after one more outbound request. *)
Definition logged (w : World) (r : Request) : World :=
  {| store := store w; faults := faults w; log := log w ++ [r] |}.

Definition fetch_search (src : Source) (token : option string) : M PageData :=
  fun w =>
    match textsearch src (length (log w)) token with
    | Some d => (Ret d, logged w (ReqSearch token))
    | None => (Throw, logged w (ReqSearch token))
    end.

Definition fetch_details (src : Source) (pid : string) : M DetailsData :=
  fun w =>
    match place_details src (length (log w)) pid with
    | Some d => (Ret d, logged w (ReqDetails pid))
    | None => (Throw, logged w (ReqDetails pid))
    end.

(** ** [POST /api/scrape] *)

Record ScrapeRequest := {
  req_niche : option string;
  req_city : option string;
  req_state : option string;
  req_limit : option JsNum
}.

Inductive Response :=
| ScrapeJson (leads_found : nat) (leads : list Lead)
| ErrorJson (code : Z) (error : string)
| StatsJson (total hot warm new_this_session : Z)
| CsvBody (csv : string).

(** The [lead] object literal, with [lead_score] already assigned. *)
Definition buildLead (place details : PlaceObj) (niche city state today : string) : Lead := {|
  id := place_id place;
  lead_name := Js.or_str_default (Js.or_str (name details) (name place)) "";
  phone := Js.or_str_default (formatted_phone_number details) "";
  niche := niche;
  city := city;
  state := state;
  address :=
    Js.or_str_default
      (Js.or_str (formatted_address details)
         (Js.or_str (vicinity details) (formatted_address place))) "";
  lead_rating := Js.q_or (Js.or_q (rating details) (rating place)) 0;
  review_count :=
    Js.num_or (Js.or_num (user_ratings_total details) (user_ratings_total place)) 0;
  gmb_link :=
    Js.or_str_default (Js.or_str (url details) (url place))
      ("https://www.google.com/maps/place/?q=place_id:" +:+ place_id place);
  lead_website := "";
  lead_score := calculateLeadScore (spread place details) niche;
  date_added := today
|}.

(** The duplicate check and the three statements it guards. *)
Definition upsert (lead : Lead) (leads : list Lead) : M (list Lead) :=
  do existing <- kv_get (lead_key (id lead)) ;;
  match existing with
  | None =>
      let leads := leads ++ [lead] in
      run kv_set (lead_key (id lead)) lead ;;
      run kv_sadd (id lead) ;;
      ret leads
  | Some _ => ret leads
  end.

(** The qualifying filter: [!details.website && details.formatted_phone_number]. *)
Definition qualifies (details : PlaceObj) : bool :=
  negb (Js.truthy_str (website details)) && Js.truthy_str (formatted_phone_number details).

(** The body of the [for (const place of ...)] loop after the limit test. *)
Definition processPlace (src : Source) (niche city state today : string)
    (place : PlaceObj) (leads : list Lead) : M (list Lead) :=
  do detailsData <- fetch_details src (place_id place) ;;
  if String.eqb (d_status detailsData) "OK" then
    let details := d_result detailsData in
    if qualifies details then
      upsert (buildLead place details niche city state today) leads
    else ret leads
  else ret leads.

Fixpoint forPlaces (src : Source) (niche city state today : string) (limit : JsNum)
    (places : list PlaceObj) (leads : list Lead) : M (list Lead) :=
  match places with
  | [] => ret leads
  | place :: rest =>
      if num_ge (Z.of_nat (length leads)) limit then ret leads
      else
        do leads' <- processPlace src niche city state today place leads ;;
        forPlaces src niche city state today limit rest leads'
  end.

Definition status_ok (d : PageData) : bool :=
  String.eqb (status d) "OK" || String.eqb (status d) "ZERO_RESULTS".

(** The [do { ... } while (...)] loop.  [fuel] bounds the unfolding of the
    model only; the loop's own exits are the [break] and the [while] test. *)
Fixpoint pageLoop (fuel : nat) (src : Source) (niche city state today : string)
    (limit maxAttempts : JsNum) (nextPageToken : option string) (attempts : Z)
    (leads : list Lead) : M (list Lead) :=
  match fuel with
  | O => diverge
  | S fuel' =>
      do data <- fetch_search src
                   (if Js.truthy_str nextPageToken then nextPageToken else None) ;;
      if negb (status_ok data) then ret leads
      else
        do leads' <- forPlaces src niche city state today limit
                       (default [] (results data)) leads ;;
        let nextPageToken := next_page_token data in
        let attempts := attempts + 1 in
        if Js.truthy_str nextPageToken
           && num_lt (Z.of_nat (length leads')) limit
           && num_lt attempts maxAttempts
        then pageLoop fuel' src niche city state today limit maxAttempts
               nextPageToken attempts leads'
        else ret leads'
  end.

Definition POST_scrape (fuel : nat) (src : Source) (apiKey : option string)
    (today : string) (req : ScrapeRequest) : M Response :=
  try_catch
    (let limit := default (Fin 100) (req_limit req) in
     if negb (Js.truthy_str (req_niche req))
        || negb (Js.truthy_str (req_city req))
        || negb (Js.truthy_str (req_state req))
     then ret (ErrorJson 400 "Missing required fields")
     else if negb (Js.truthy_str apiKey)
     then ret (ErrorJson 500 "API key not configured")
     else
       let niche := Js.or_str_default (req_niche req) "" in
       let city := Js.or_str_default (req_city req) "" in
       let state := Js.or_str_default (req_state req) "" in
       let maxAttempts := ceil_div20 limit in
       do leads <- pageLoop fuel src niche city state today limit maxAttempts None 0 [] ;;
       ret (ScrapeJson (length leads) leads))
    (ret (ErrorJson 500 "Scraping failed")).

(** ** [GET /api/export] *)

(** The [for (const id of leadIds)] loop of the export: an id whose key
    holds no value is skipped. *)
Fixpoint loadLeads (leadIds : list string) (leads : list Lead) : M (list Lead) :=
  match leadIds with
  | [] => ret leads
  | i :: rest =>
      do data <- kv_get (lead_key i) ;;
      match data with
      | Some lead => loadLeads rest (leads ++ [lead])
      | None => loadLeads rest leads
      end
  end.

(** [leads.sort((a, b) => (b.lead_score || 0) - (a.lead_score || 0))].
    [Array.prototype.sort] is stable; a stable insertion sort stands for it. *)
Fixpoint insert_by_score (x : Lead) (l : list Lead) : list Lead :=
  match l with
  | [] => [x]
  | y :: r =>
      if lead_score x <? lead_score y then y :: insert_by_score x r
      else x :: y :: r
  end.

Definition sort_by_score (l : list Lead) : list Lead :=
  foldr insert_by_score [] l.

Definition headers : list string :=
  ["name"; "phone"; "niche"; "city"; "state"; "address"; "rating";
   "review_count"; "lead_score"; "gmb_link"].

Inductive JsVal :=
| VStr (s : string)
| VInt (n : Z)
| VNum (q : Q)
| VUndef.

(** [lead[h]]. *)
Definition lead_prop (lead : Lead) (h : string) : JsVal :=
  if String.eqb h "id" then VStr (id lead)
  else if String.eqb h "name" then VStr (lead_name lead)
  else if String.eqb h "phone" then VStr (phone lead)
  else if String.eqb h "niche" then VStr (niche lead)
  else if String.eqb h "city" then VStr (city lead)
  else if String.eqb h "state" then VStr (state lead)
  else if String.eqb h "address" then VStr (address lead)
  else if String.eqb h "rating" then VNum (lead_rating lead)
  else if String.eqb h "review_count" then VInt (review_count lead)
  else if String.eqb h "gmb_link" then VStr (gmb_link lead)
  else if String.eqb h "website" then VStr (lead_website lead)
  else if String.eqb h "lead_score" then VInt (lead_score lead)
  else if String.eqb h "date_added" then VStr (date_added lead)
  else VUndef.

Definition Z_to_string (n : Z) : string :=
  NilZero.string_of_int (Z.to_int n).

Definition digit_char (d : Z) : ascii := ascii_of_nat (48 + Z.to_nat d).

(** Decimal digits of the fraction [r / d], at most [k] of them. *)
Fixpoint frac_digits (k : nat) (r d : Z) : string :=
  match k with
  | O => EmptyString
  | S k' =>
      if r =? 0 then EmptyString
      else String (digit_char (r * 10 / d)) (frac_digits k' (r * 10 mod d) d)
  end.

(** [Number.prototype.toString] of a rational: exact for the decimal
    fractions of at most 17 places, which is what a rating is. *)
Definition Q_to_string (q : Q) : string :=
  let n := Z.abs (Qnum q) in
  let d := Z.pos (Qden q) in
  (if Qnum q <? 0 then "-" else EmptyString)
  +:+ Z_to_string (n / d)
  +:+ (if n mod d =? 0 then EmptyString
       else "." +:+ frac_digits 17 (n mod d) d).

(** [(v || '').toString()]. *)
Definition cell_text (v : JsVal) : string :=
  match v with
  | VStr s => s
  | VInt n => if n =? 0 then EmptyString else Z_to_string n
  | VNum q => if Qeq_bool q 0 then EmptyString else Q_to_string q
  | VUndef => EmptyString
  end.

Definition dquote : ascii := "034"%char.
Definition backslash : ascii := "092"%char.
Definition newline : string := String "010"%char EmptyString.

(** [s.replace(/"/g, '\\"')]: a backslash goes in front of every quote. *)
Fixpoint escape_quotes (s : string) : string :=
  match s with
  | EmptyString => EmptyString
  | String c r =>
      if Ascii.eqb c dquote then String backslash (String dquote (escape_quotes r))
      else String c (escape_quotes r)
  end.

Definition cell (lead : Lead) (h : string) : string :=
  String dquote (escape_quotes (cell_text (lead_prop lead h)))
  +:+ String dquote EmptyString.

(** [Array.prototype.join]. *)
Fixpoint join (sep : string) (l : list string) : string :=
  match l with
  | [] => EmptyString
  | [x] => x
  | x :: r => x +:+ sep +:+ join sep r
  end.

Definition csv_row (lead : Lead) : string := join "," (map (cell lead) headers).

Definition csv_of (leads : list Lead) : string :=
  join newline (join "," headers :: map csv_row leads).

Definition GET_export : M Response :=
  try_catch
    (do leadIds <- kv_smembers ;;
     do leads <- loadLeads leadIds [] ;;
     let leads := sort_by_score leads in
     ret (CsvBody (csv_of leads)))
    (ret (ErrorJson 500 "Export failed")).

(** ** [GET /api/stats] *)

Record Counts := {
  total : Z;
  hot : Z;
  warm : Z;
  newToday : Z
}.

Definition zero_counts : Counts := {| total := 0; hot := 0; warm := 0; newToday := 0 |}.

Definition count_lead (today : string) (lead : Lead) (c : Counts) : Counts :=
  let score := lead_score lead in
  {| total := total c + 1;
     hot := if 18 <=? score then hot c + 1 else hot c;
     warm := if 18 <=? score then warm c
             else if 12 <=? score then warm c + 1 else warm c;
     newToday := if String.eqb (date_added lead) today then newToday c + 1
                 else newToday c |}.

Fixpoint statsLoop (today : string) (leadIds : list string) (c : Counts) : M Counts :=
  match leadIds with
  | [] => ret c
  | i :: rest =>
      do data <- kv_get (lead_key i) ;;
      match data with
      | Some lead => statsLoop today rest (count_lead today lead c)
      | None => statsLoop today rest c
      end
  end.

Definition stats_json (c : Counts) : Response :=
  StatsJson (total c) (hot c) (warm c) (newToday c).

Definition stats_body (today : string) : M Response :=
  do leadIds <- kv_smembers ;;
  match leadIds with
  | [] => ret (StatsJson 0 0 0 0)
  | _ =>
      do c <- statsLoop today leadIds zero_counts ;;
      ret (stats_json c)
  end.

Definition GET_stats (today : string) : M Response :=
  try_catch (stats_body today) (ret (StatsJson 0 0 0 0)).

(** ** The published scoring policy, in the words of the specification

    These relations restate the policy table; they are compared with
    [calculateLeadScore] below. *)

Definition spec_review_points (review_count0 pts : Z) : Prop :=
  (review_count0 = 0 /\ pts = 10)
  \/ (1 <= review_count0 <= 10 /\ pts = 8)
  \/ (11 <= review_count0 <= 25 /\ pts = 5)
  \/ (26 <= review_count0 <= 50 /\ pts = 3)
  \/ (50 < review_count0 /\ pts = 1).

Definition spec_rating_points (r : Q) (pts : Z) : Prop :=
  ((0 < r)%Q /\ (r <= 7 # 2)%Q /\ pts = 9)
  \/ ((7 # 2 < r)%Q /\ (r <= 4 # 1)%Q /\ pts = 4)
  \/ (~ ((0 < r)%Q /\ (r <= 4 # 1)%Q) /\ pts = 0).

Definition spec_website_points (has_website : bool) (pts : Z) : Prop :=
  (has_website = false /\ pts = 3) \/ (has_website = true /\ pts = 0).

(** [n] occurs in [s]. *)
Definition is_substring (n s : string) : Prop :=
  exists pre post : string, s = pre +:+ n +:+ post.

(** Case-insensitive substring match against the high-value list. *)
Definition spec_niche_match (niche0 : string) : Prop :=
  exists n, In n highValueNiches
            /\ is_substring (Js.toLowerCase n) (Js.toLowerCase niche0).

Definition spec_niche_points (niche0 : string) (pts : Z) : Prop :=
  (spec_niche_match niche0 /\ pts = 7) \/ (~ spec_niche_match niche0 /\ pts = 0).

Definition spec_clamp (x : Z) : Z := Z.max 0 (Z.min x 30).

(** ** Observations used in the statements below *)

(** The identity key would be a function of (business name, city). *)
Definition key_is_hash_of_name_city : Prop :=
  exists h : string -> string -> string,
    forall place details niche0 city0 state0 today,
      let lead := buildLead place details niche0 city0 state0 today in
      id lead = h (lead_name lead) (city lead).

(** Rows ordered by score descending, ties by identity key ascending. *)
Fixpoint score_then_key_sorted (l : list Lead) : bool :=
  match l with
  | [] => true
  | a :: r =>
      match r with
      | [] => true
      | b :: _ =>
          ((lead_score b <? lead_score a)
           || ((lead_score a =? lead_score b) && String.leb (id a) (id b)))
          && score_then_key_sorted r
      end
  end.

(** Rows ordered by score descending (ties in any order). *)
Definition score_sorted (l : list Lead) : Prop :=
  StronglySorted (fun a b => lead_score b <= lead_score a) l.

(** The rows of [l] whose score is [s], in the order in which they stand. *)
Definition with_score (s : Z) (l : list Lead) : list Lead :=
  List.filter (fun x => lead_score x =? s) l.

(** The leads of the store in the order of enumeration of [leads:ids]. *)
Definition stored_leads (s : Store) : list Lead :=
  omap (fun i => kv s !! lead_key i) (ids s).

(** The header row as the specification lists the persisted fields. *)
Definition spec_headers : list string :=
  ["name"; "phone"; "niche"; "city"; "state"; "address"; "rating";
   "review_count"; "lead_score"; "gmb_link"; "date_added"].

(** Every quote of [s] stands right after a backslash. *)
Fixpoint quotes_escaped_after (prev_backslash : bool) (s : string) : bool :=
  match s with
  | EmptyString => true
  | String c r =>
      if Ascii.eqb c dquote then prev_backslash && quotes_escaped_after false r
      else quotes_escaped_after (Ascii.eqb c backslash) r
  end.

Definition quotes_escaped (s : string) : bool := quotes_escaped_after false s.

(** Reading an escaped text back: a backslash in front of a quote is dropped. *)
Fixpoint unescape_quotes (s : string) : string :=
  match s with
  | EmptyString => EmptyString
  | String c r =>
      match r with
      | String c' r' =>
          if Ascii.eqb c backslash && Ascii.eqb c' dquote
          then String dquote (unescape_quotes r')
          else String c (unescape_quotes r)
      | EmptyString => String c EmptyString
      end
  end.





(** ** [GET /api/leads] and [DELETE /api/leads] *)

Inductive LeadsResponse :=
| LeadsJson (leads : list Lead)
| LeadsError (code : Z) (error : string).

Inductive ClearResponse :=
| ClearJson (success : bool)
| ClearError (code : Z) (error : string).

(** The three [continue] tests of the loop: [false] when the lead is
    skipped under [filter]. *)
Definition passes (filter : string) (lead : Lead) : bool :=
  let score := lead_score lead in
  if String.eqb filter "hot" && (score <? 18) then false
  else if String.eqb filter "warm" && ((score <? 12) || (18 <=? score)) then false
  else if String.eqb filter "medium" && ((score <? 7) || (12 <=? score)) then false
  else true.

Fixpoint leadsLoop (filter : string) (leadIds : list string) (leads : list Lead)
  : M (list Lead) :=
  match leadIds with
  | [] => ret leads
  | i :: rest =>
      do data <- kv_get (lead_key i) ;;
      match data with
      | Some lead =>
          if passes filter lead then leadsLoop filter rest (leads ++ [lead])
          else leadsLoop filter rest leads
      | None => leadsLoop filter rest leads
      end
  end.

(** [filterParam] is [searchParams.get('filter')]. *)
Definition GET_leads (filterParam : option string) : M LeadsResponse :=
  try_catch
    (let filter := Js.or_str_default filterParam "all" in
     do leadIds <- kv_smembers ;;
     match leadIds with
     | [] => ret (LeadsJson [])
     | _ =>
         do leads <- leadsLoop filter leadIds [] ;;
         let leads := sort_by_score leads in
         ret (LeadsJson leads)
     end)
    (ret (LeadsError 500 "Failed to fetch leads")).

(** [kv.del(key)]: the key [leads:ids] holds the id set, every other key
    a lead. *)
Definition kv_del (key : string) : M unit :=
  kv_call (fun s =>
             if String.eqb key "leads:ids"
             then (tt, {| kv := kv s; ids := [] |})
             else (tt, {| kv := delete key (kv s); ids := ids s |})).

Fixpoint deleteLoop (leadIds : list string) : M unit :=
  match leadIds with
  | [] => ret tt
  | i :: rest => run kv_del (lead_key i) ;; deleteLoop rest
  end.

Definition DELETE_leads : M ClearResponse :=
  try_catch
    (do leadIds <- kv_smembers ;;
     run deleteLoop leadIds ;;
     run kv_del "leads:ids" ;;
     ret (ClearJson true))
    (ret (ClearError 500 "Failed to clear leads")).

(** ** Invariants of the store *)

(** Every stored value sits under the key of its own id and is a
    qualified lead: a phone, no website, a score from 1 to 29. *)
Definition leads_wellformed (s : Store) : Prop :=
  forall k l, kv s !! k = Some l ->
              k = lead_key (id l)
              /\ lead_website l = EmptyString
              /\ phone l <> EmptyString
              /\ 1 <= lead_score l <= 29.

(** The id set has no repetition and lists only ids that hold a value. *)
Definition listing_ok (s : Store) : Prop :=
  NoDup (ids s) /\ forall i, In i (ids s) -> is_Some (kv s !! lead_key i).

(** Every stored value is listed in the id set. *)
Definition all_listed (s : Store) : Prop :=
  forall k, is_Some (kv s !! k) -> exists i, In i (ids s) /\ k = lead_key i.

(** Counting over a list of leads, as the stats loop does over the store. *)
Definition count_where (p : Lead -> bool) (l : list Lead) : Z :=
  Z.of_nat (length (List.filter p l)).

Definition is_hot (lead : Lead) : bool := 18 <=? lead_score lead.
Definition is_warm (lead : Lead) : bool :=
  (12 <=? lead_score lead) && (lead_score lead <? 18).
Definition added_on (today : string) (lead : Lead) : bool :=
  String.eqb (date_added lead) today.

(** Between [w] and [w'] the fault oracle rejected nothing: the entries
    consumed were all [false]. *)
Definition calls_passed (w w' : World) : Prop :=
  exists k : nat, faults w = repeat false k ++ faults w'.

(** A lead as the scrape builds it from a candidate that qualifies. *)
Definition built (lead : Lead) : Prop :=
  exists place details niche0 city0 state0 today,
    qualifies details = true
    /\ lead = buildLead place details niche0 city0 state0 today.

(** The store after [kv.set] and [kv.sadd] for [lead]. *)
Definition add_lead (s : Store) (lead : Lead) : Store :=
  {| kv := <[lead_key (id lead) := lead]> (kv s); ids := sadd (id lead) (ids s) |}.

(** [new] are built leads, each under a key that is free when its turn
    comes. *)
Fixpoint fresh_run (s : Store) (new : list Lead) : Prop :=
  match new with
  | [] => True
  | lead :: rest =>
      built lead /\ kv s !! lead_key (id lead) = None
      /\ fresh_run (add_lead s lead) rest
  end.

(** The summary of a run that returned: the leads it appended, in order,
    are exactly what it added to the store. *)
Definition ran_ok (w : World) (leads : list Lead) (w' : World) (ls : list Lead) : Prop :=
  exists new, ls = leads ++ new
              /\ store w' = foldl add_lead (store w) new
              /\ fresh_run (store w) new
              /\ calls_passed w w'.

(** ** Variations of a candidate, for the statements about the scorer *)

Definition with_reviews (p : PlaceObj) (n : Z) : PlaceObj := {|
  place_id := place_id p;
  name := name p;
  formatted_phone_number := formatted_phone_number p;
  website := website p;
  formatted_address := formatted_address p;
  vicinity := vicinity p;
  url := url p;
  rating := rating p;
  user_ratings_total := Some n
|}.

Definition with_website (p : PlaceObj) (site : option string) : PlaceObj := {|
  place_id := place_id p;
  name := name p;
  formatted_phone_number := formatted_phone_number p;
  website := site;
  formatted_address := formatted_address p;
  vicinity := vicinity p;
  url := url p;
  rating := rating p;
  user_ratings_total := user_ratings_total p
|}.

(** A stored lead read back as a candidate: its own review count, rating
    and (empty) website. *)
Definition lead_as_place (l : Lead) : PlaceObj := {|
  place_id := id l;
  name := Some (lead_name l);
  formatted_phone_number := Some (phone l);
  website := Some (lead_website l);
  formatted_address := Some (address l);
  vicinity := None;
  url := Some (gmb_link l);
  rating := Some (lead_rating l);
  user_ratings_total := Some (review_count l)
|}.

(** ** Concrete inputs used by the examples *)

Definition plumber_place : PlaceObj := {|
  place_id := "ChIJ-plumber-1";
  name := Some "Ace Plumbing";
  formatted_phone_number := None;
  website := None;
  formatted_address := None;
  vicinity := None;
  url := None;
  rating := Some (16 # 5)%Q;
  user_ratings_total := Some 5
|}.


Definition plumber_details : PlaceObj := {|
  place_id := EmptyString;
  name := Some "Ace Plumbing";
  formatted_phone_number := Some "555-1234";
  website := Some EmptyString;
  formatted_address := Some "12 Main St, Houston, TX";
  vicinity := None;
  url := None;
  rating := Some (16 # 5)%Q;
  user_ratings_total := Some 5
|}.

(** The same listing under a second source-local identifier. *)
Definition plumber_place_again : PlaceObj := {|
  place_id := "ChIJ-plumber-2";
  name := Some "Ace Plumbing";
  formatted_phone_number := None;
  website := None;
  formatted_address := None;
  vicinity := None;
  url := None;
  rating := Some (16 # 5)%Q;
  user_ratings_total := Some 5
|}.

Definition site_details : PlaceObj := {|
  place_id := EmptyString;
  name := Some "Ace Plumbing";
  formatted_phone_number := Some "555-1234";
  website := Some "http://x.com";
  formatted_address := Some "12 Main St, Houston, TX";
  vicinity := None;
  url := None;
  rating := Some (16 # 5)%Q;
  user_ratings_total := Some 5
|}.

Definition demo_lead : Lead :=
  buildLead plumber_place plumber_details "plumbers" "Houston" "TX" "2026-01-05".

Definition world0 : World := {| store := empty_store; faults := []; log := [] |}.

Definition world1 : World := snd (upsert demo_lead [] world0).

(** A source that answers every details request with [d]. *)
Definition details_source (d : PlaceObj) : Source := {|
  textsearch := fun _ _ => None;
  place_details := fun _ _ => Some {| d_status := "OK"; d_result := d |}
|}.

Definition error_page : PageData :=
  {| status := "OVER_QUERY_LIMIT"; results := None; next_page_token := None |}.

(** One good page with a next-page token, then an error page. *)
Definition two_page_source : Source := {|
  textsearch := fun _ tok =>
    match tok with
    | None => Some {| status := "OK"; results := Some [plumber_place];
                      next_page_token := Some "page-2" |}
    | Some _ => Some error_page
    end;
  place_details := fun _ _ => Some {| d_status := "OK"; d_result := plumber_details |}
|}.


Definition plumber_request (limit : option JsNum) : ScrapeRequest :=
  {| req_niche := Some "plumbers"; req_city := Some "Houston";
     req_state := Some "TX"; req_limit := limit |}.

(** The store of [world1] with a KV client whose second call rejects. *)
Definition faulty_world1 : World :=
  {| store := store world1; faults := [false; true]; log := [] |}.

(** Two leads of equal score, stored in the order in which one page
    listed them: the second identifier first. *)
Definition tie_world : World :=
  snd (forPlaces (details_source plumber_details) "plumbers" "Houston" "TX"
         "2026-01-05" (Fin 100) [plumber_place_again; plumber_place] [] world0).

(** The same entries, enumerated the other way round. *)
Definition tie_world_swapped : World :=
  {| store := {| kv := kv (store tie_world); ids := rev (ids (store tie_world)) |};
     faults := []; log := log tie_world |}.

(** One good page with a next-page token, then a page whose body does
    not decode. *)
Definition undecodable_page_source : Source := {|
  textsearch := fun _ tok =>
    match tok with
    | None => Some {| status := "OK"; results := Some [plumber_place];
                      next_page_token := Some "page-2" |}
    | Some _ => None
    end;
  place_details := fun _ _ => Some {| d_status := "OK"; d_result := plumber_details |}
|}.



(** An empty store behind a KV client that lets three calls through. *)
Definition faulty_world0 : World :=
  {| store := empty_store; faults := [false; false; false; true]; log := [] |}.

(** An empty store behind a KV client whose third call rejects. *)
Definition sadd_fault_world : World :=
  {| store := empty_store; faults := [false; false; true]; log := [] |}.

(** A details answer that reports zero reviews for a place the search
    listed with five. *)
Definition zero_reviews_details : PlaceObj := {|
  place_id := EmptyString;
  name := Some "Ace Plumbing";
  formatted_phone_number := Some "555-1234";
  website := None;
  formatted_address := None;
  vicinity := None;
  url := None;
  rating := None;
  user_ratings_total := Some 0
|}.

(** The two leads of [tie_world] behind a KV client whose third call (the
    second [kv.del]) rejects. *)
Definition clear_fault_world : World :=
  {| store := store tie_world; faults := [false; false; true]; log := [] |}.

Definition demo_lead_again : Lead :=
  buildLead plumber_place_again plumber_details "plumbers" "Houston" "TX" "2026-01-05".

(** A details answer whose [rating] and [user_ratings_total] are JSON
    [null]: present and falsy, like 0. *)
Definition null_numbers_details : PlaceObj := {|
  place_id := EmptyString;
  name := Some "Ace Plumbing";
  formatted_phone_number := Some "555-1234";
  website := None;
  formatted_address := None;
  vicinity := None;
  url := None;
  rating := Some 0%Q;
  user_ratings_total := Some 0
|}.

(** * Properties *)

(** ** Strings *)

Lemma prefix_iff (n s : string) :
  String.prefix n s = true <-> exists post, s = n +:+ post.
Proof.
  revert s. induction n as [|c n IH]; intros s; simpl.
  - split; [intros _; exists s; reflexivity | intros _; now destruct s].
  - destruct s as [|c' s]; simpl.
    + split; [discriminate | intros [post H]; discriminate].
    + destruct (ascii_dec c c') as [->|Hne].
      * rewrite IH. split; intros [post H]; exists post.
        -- now rewrite H.
        -- now inversion H.
      * split; [discriminate | intros [post H]; inversion H; congruence].
Qed.

Lemma includes_unfold (s n : string) :
  Js.includes s n =
  if String.prefix n s then true
  else match s with
       | EmptyString => false
       | String _ r => Js.includes r n
       end.
Proof. destruct s; reflexivity. Qed.

Lemma includes_iff (s n : string) :
  Js.includes s n = true <-> is_substring n s.
Proof.
  unfold is_substring. induction s as [|c s IH]; rewrite includes_unfold.
  - destruct (String.prefix n "") eqn:Hp.
    + split; [intros _ | reflexivity].
      apply prefix_iff in Hp as [post Hp]. exists "", post. exact Hp.
    + split; [discriminate |].
      intros [pre [post H]]. destruct pre; simpl in H.
      * assert (String.prefix n "" = true) by (apply prefix_iff; eauto).
        congruence.
      * discriminate.
  - destruct (String.prefix n (String c s)) eqn:Hp.
    + split; [intros _ | reflexivity].
      apply prefix_iff in Hp as [post Hp]. exists "", post. exact Hp.
    + rewrite IH. split.
      * intros [pre [post H]]. exists (String c pre), post. simpl. now rewrite H.
      * intros [pre [post H]]. destruct pre as [|c' pre]; simpl in H.
        -- assert (String.prefix n (String c s) = true) by (apply prefix_iff; eauto).
           congruence.
        -- inversion H. eauto.
Qed.

Lemma toLowerCase_fixed (n : string) :
  In n highValueNiches -> Js.toLowerCase n = n.
Proof.
  unfold highValueNiches. simpl.
  intros H; repeat (destruct H as [<-|H]; [reflexivity|]); contradiction.
Qed.

(** ** The scorer *)

Lemma niche_term_spec (niche0 : string) : spec_niche_points niche0 (niche_term niche0).
Proof.
  unfold spec_niche_points, niche_term, Js.some.
  destruct (existsb _ highValueNiches) eqn:E.
  - left. split; [|reflexivity].
    apply existsb_exists in E as [n [Hin Hn]].
    exists n. split; [exact Hin|].
    rewrite (toLowerCase_fixed n Hin). now apply includes_iff.
  - right. split; [|reflexivity].
    intros [n [Hin Hn]].
    rewrite (toLowerCase_fixed n Hin) in Hn. apply includes_iff in Hn.
    assert (existsb (fun n => Js.includes (Js.toLowerCase niche0) n) highValueNiches = true)
      by (apply existsb_exists; eauto).
    congruence.
Qed.

Lemma review_term_spec (rc : Z) : 0 <= rc -> spec_review_points rc (review_term rc).
Proof.
  intros H. unfold spec_review_points, review_term.
  repeat match goal with
         | |- context [?a =? ?b] => destruct (Z.eqb_spec a b)
         | |- context [?a <=? ?b] => destruct (Z.leb_spec a b)
         end; lia.
Qed.

Lemma Qlt_bool_iff (x y : Q) : Js.Qlt_bool x y = true <-> (x < y)%Q.
Proof.
  unfold Js.Qlt_bool. rewrite negb_true_iff.
  split.
  - intros H. apply Qnot_le_lt. intros Hle. apply Qle_bool_iff in Hle. congruence.
  - intros H. destruct (Qle_bool y x) eqn:E; [|reflexivity].
    apply Qle_bool_iff in E. exfalso. exact (Qlt_not_le _ _ H E).
Qed.

Lemma rating_term_spec (r : Q) : spec_rating_points r (rating_term r).
Proof.
  unfold spec_rating_points, rating_term.
  destruct (Js.Qlt_bool 0 r) eqn:E0; destruct (Qle_bool r (7 # 2)) eqn:E1; simpl.
  - left. apply Qlt_bool_iff in E0. apply Qle_bool_iff in E1. auto.
  - destruct (Js.Qlt_bool (7 # 2) r) eqn:E2; destruct (Qle_bool r (4 # 1)) eqn:E3; simpl.
    + right; left. apply Qlt_bool_iff in E2. apply Qle_bool_iff in E3. auto.
    + right; right. split; [|reflexivity]. intros [_ H].
      apply Qle_bool_iff in H. congruence.
    + exfalso. destruct (Qle_bool r (7 # 2)) eqn:E4; [discriminate|].
      unfold Js.Qlt_bool in E2. rewrite E4 in E2.
      discriminate.
    + right; right. split; [|reflexivity]. intros [_ H].
      apply Qle_bool_iff in H. congruence.
  - right; right. split.
    + intros [H _]. apply Qlt_bool_iff in H. congruence.
    + destruct (Js.Qlt_bool (7 # 2) r) eqn:E2; [|now destruct (Qle_bool r (4 # 1))].
      exfalso. apply Qlt_bool_iff in E2. apply Qle_bool_iff in E1.
      exact (Qlt_not_le _ _ E2 E1).
  - right; right. split.
    + intros [H _]. apply Qlt_bool_iff in H. congruence.
    + destruct (Js.Qlt_bool (7 # 2) r) eqn:E2; simpl.
      * exfalso. apply Qlt_bool_iff in E2.
        assert (0 < r)%Q by (eapply Qlt_trans; [|exact E2]; reflexivity).
        apply Qlt_bool_iff in H. congruence.
      * reflexivity.
Qed.

Lemma website_term_spec (w : option string) :
  spec_website_points (Js.truthy_str w) (website_term w).
Proof.
  unfold spec_website_points, website_term.
  destruct (Js.truthy_str w); simpl; auto.
Qed.

Lemma term_ranges (rc : Z) (r : Q) (w : option string) (niche0 : string) :
  1 <= review_term rc <= 10 /\ 0 <= rating_term r <= 9
  /\ 0 <= website_term w <= 3 /\ 0 <= niche_term niche0 <= 7.
Proof.
  unfold review_term, rating_term, website_term, niche_term.
  repeat match goal with |- context [if ?b then _ else _] => destruct b end; lia.
Qed.

(** C1: the score is the sum of the published terms (review count, rating,
    missing website, high-value niche), clamped, and lies in [0, 30]. *)
Theorem C1_score_is_published_sum (place : PlaceObj) (niche0 : string) :
  let rc := Js.num_or (user_ratings_total place) 0 in
  let r := Js.q_or (rating place) 0 in
  let has_website := Js.truthy_str (website place) in
  0 <= calculateLeadScore place niche0 <= 30
  /\ (0 <= rc ->
      exists a b c d,
        spec_review_points rc a /\ spec_rating_points r b
        /\ spec_website_points has_website c /\ spec_niche_points niche0 d
        /\ calculateLeadScore place niche0 = spec_clamp (a + b + c + d)).
Proof.
  intros rc r has_website.
  pose proof (term_ranges rc r (website place) niche0) as (Ha & Hb & Hc & Hd).
  split.
  - unfold calculateLeadScore. fold rc r. lia.
  - intros Hrc.
    exists (review_term rc), (rating_term r), (website_term (website place)),
      (niche_term niche0).
    repeat split.
    + now apply review_term_spec.
    + apply rating_term_spec.
    + apply website_term_spec.
    + apply niche_term_spec.
    + unfold calculateLeadScore, spec_clamp. fold rc r. lia.
Qed.

Lemma C1_witness :
  0 <= calculateLeadScore plumber_place "plumbers" <= 30
  /\ exists a b c d,
       spec_review_points 5 a /\ spec_rating_points (16 # 5) b
       /\ spec_website_points false c /\ spec_niche_points "plumbers" d
       /\ calculateLeadScore plumber_place "plumbers" = spec_clamp (a + b + c + d).
Proof.
  destruct (C1_score_is_published_sum plumber_place "plumbers") as [Hr Hs].
  split; [exact Hr|]. apply Hs. vm_compute. discriminate.
Defined.

(** C7: plumbers, 5 reviews, rating 3.2, no website scores 8 + 9 + 3 + 7 = 27,
    and 27 is in tier HOT. *)
Theorem C7_plumber_scenario :
  review_term 5 = 8 /\ rating_term (16 # 5) = 9
  /\ website_term None = 3 /\ niche_term "plumbers" = 7
  /\ calculateLeadScore plumber_place "plumbers" = 27
  /\ getTier (calculateLeadScore plumber_place "plumbers") = "HOT"
  /\ (forall score, 18 <= score -> getTier score = "HOT").
Proof.
  repeat split; try reflexivity.
  intros score H. unfold getTier.
  destruct (Z.leb_spec 18 score); [reflexivity | lia].
Qed.

Lemma C7_witness : getTier 27 = "HOT".
Proof.
  destruct C7_plumber_scenario as (_ & _ & _ & _ & _ & _ & H).
  apply H. lia.
Defined.

(** ** The store under [upsert] *)

Ltac unfold_kv :=
  unfold upsert, bind, ret, kv_get, kv_set, kv_sadd, kv_smembers, kv_call in *;
  cbn [store faults log kv ids fst snd] in *.

(** Case analysis on the first three entries of the fault oracle. *)
Ltac split_faults f :=
  destruct f as [|[] [|[] [|[] ?]]].

Lemma upsert_present (lead old : Lead) (leads : list Lead) (w : World) :
  kv (store w) !! lead_key (id lead) = Some old ->
  store (snd (upsert lead leads w)) = store w
  /\ (fst (upsert lead leads w) = Ret leads \/ fst (upsert lead leads w) = Throw).
Proof.
  destruct w as [s f l]. intros H. unfold_kv.
  destruct f as [|[] f]; cbn; rewrite ?H; cbn; auto.
Qed.

Lemma upsert_absent (lead : Lead) (leads : list Lead) (w : World) :
  faults w = [] ->
  kv (store w) !! lead_key (id lead) = None ->
  upsert lead leads w =
  (Ret (leads ++ [lead]),
   {| store := {| kv := <[lead_key (id lead) := lead]> (kv (store w));
                  ids := sadd (id lead) (ids (store w)) |};
      faults := []; log := log w |}).
Proof.
  destruct w as [s f l]. cbn. intros -> H. unfold_kv. cbn. rewrite H. reflexivity.
Qed.

(** Whatever the faults, [upsert] touches nothing but its own key and id,
    and writes only when the key was free. *)
Lemma upsert_frame (lead : Lead) (leads : list Lead) (w : World) :
  let w' := snd (upsert lead leads w) in
  (forall k, k <> lead_key (id lead) -> kv (store w') !! k = kv (store w) !! k)
  /\ (forall i, i ∈ ids (store w') -> i ∈ ids (store w) \/ i = id lead)
  /\ (store w' <> store w -> kv (store w) !! lead_key (id lead) = None)
  /\ log w' = log w.
Proof.
  destruct w as [s f l]. unfold_kv.
  assert (Hsadd : forall i, i ∈ sadd (id lead) (ids s) -> i ∈ ids s \/ i = id lead).
  { intros i. unfold sadd. case_bool_decide; [auto|].
    rewrite elem_of_app, list_elem_of_singleton. auto. }
  destruct (kv s !! lead_key (id lead)) eqn:E;
    split_faults f; cbn; rewrite ?E; cbn;
    (split; [intros k Hk; rewrite ?lookup_insert_ne by congruence; reflexivity|]);
    (split; [auto|]); (split; [|reflexivity]); intros Hs; try reflexivity;
    exfalso; apply Hs; destruct s; reflexivity.
Qed.

(** C4: an [upsert] on a key that is already stored leaves the store as
    it is and does not report an insertion; two upserts of one identity key
    leave exactly one stored lead, the first. *)
Theorem C4_first_write_wins (lead lead' old : Lead) (leads : list Lead) (w : World) :
  (kv (store w) !! lead_key (id lead) = Some old ->
   store (snd (upsert lead leads w)) = store w
   /\ (fst (upsert lead leads w) = Ret leads \/ fst (upsert lead leads w) = Throw))
  /\ (id lead' = id lead ->
      faults w = [] ->
      kv (store w) !! lead_key (id lead) = None ->
      id lead ∉ ids (store w) ->
      let r1 := upsert lead leads w in
      let r2 := upsert lead' (leads ++ [lead]) (snd r1) in
      fst r1 = Ret (leads ++ [lead])
      /\ fst r2 = Ret (leads ++ [lead])
      /\ store (snd r2) = store (snd r1)
      /\ kv (store (snd r2)) !! lead_key (id lead) = Some lead
      /\ size (kv (store (snd r2))) = S (size (kv (store w)))
      /\ ids (store (snd r2)) = ids (store w) ++ [id lead]).
Proof.
  split; [apply upsert_present|].
  intros Hid Hf Hnone Hnotin r1 r2.
  assert (E1 : r1 = (Ret (leads ++ [lead]),
                     {| store := {| kv := <[lead_key (id lead) := lead]> (kv (store w));
                                    ids := sadd (id lead) (ids (store w)) |};
                        faults := []; log := log w |}))
    by (now apply upsert_absent).
  assert (Hl : kv (store (snd r1)) !! lead_key (id lead') = Some lead).
  { rewrite E1, Hid. cbn. apply lookup_insert_eq. }
  assert (E2 : r2 = (Ret (leads ++ [lead]), snd r1)).
  { subst r2. rewrite E1 in *. cbn [snd] in *. unfold_kv. cbn. rewrite Hl. reflexivity. }
  rewrite E2. cbn [fst snd]. rewrite E1. cbn.
  repeat split.
  - apply lookup_insert_eq.
  - now apply map_size_insert_None.
  - unfold sadd. now rewrite bool_decide_eq_false_2.
Qed.

Lemma C4_witness :
  (store (snd (upsert demo_lead [] world1)) = store world1
   /\ (fst (upsert demo_lead [] world1) = Ret []
       \/ fst (upsert demo_lead [] world1) = Throw))
  /\ (let r1 := upsert demo_lead [] world0 in
      let r2 := upsert demo_lead ([] ++ [demo_lead]) (snd r1) in
      fst r1 = Ret ([] ++ [demo_lead])
      /\ fst r2 = Ret ([] ++ [demo_lead])
      /\ store (snd r2) = store (snd r1)
      /\ kv (store (snd r2)) !! lead_key (id demo_lead) = Some demo_lead
      /\ size (kv (store (snd r2))) = S (size (kv (store world0)))
      /\ ids (store (snd r2)) = ids (store world0) ++ [id demo_lead]).
Proof.
  split.
  - apply (proj1 (C4_first_write_wins demo_lead demo_lead demo_lead [] world1)).
    vm_compute. reflexivity.
  - apply (proj2 (C4_first_write_wins demo_lead demo_lead demo_lead [] world0)).
    + reflexivity.
    + reflexivity.
    + vm_compute. reflexivity.
    + apply not_elem_of_nil.
Defined.

(** ** One candidate through the qualifying filter *)

Lemma processPlace_unfold (src : Source) (niche0 city0 state0 today : string)
    (place : PlaceObj) (leads : list Lead) (w : World) :
  processPlace src niche0 city0 state0 today place leads w =
  let w1 := logged w (ReqDetails (place_id place)) in
  match place_details src (length (log w)) (place_id place) with
  | None => (Throw, w1)
  | Some dd =>
      if String.eqb (d_status dd) "OK" && qualifies (d_result dd)
      then upsert (buildLead place (d_result dd) niche0 city0 state0 today) leads w1
      else (Ret leads, w1)
  end.
Proof.
  unfold processPlace, bind, fetch_details.
  destruct (place_details src (length (log w)) (place_id place)) as [dd|]; [|reflexivity].
  cbn. destruct (String.eqb (d_status dd) "OK"); [|reflexivity].
  destruct (qualifies (d_result dd)); reflexivity.
Qed.

Lemma qualifies_iff (d : PlaceObj) :
  qualifies d = true <->
  Js.truthy_str (website d) = false /\ Js.truthy_str (formatted_phone_number d) = true.
Proof.
  unfold qualifies. rewrite andb_true_iff, negb_true_iff. reflexivity.
Qed.

(** C2: a candidate reaches the store only with a non-empty phone and an
    empty website; one with an empty website and a phone is stored, one
    with a website is never stored, whatever its phone. *)
Theorem C2_qualifying_filter (src : Source) (niche0 city0 state0 today : string)
    (place : PlaceObj) (leads : list Lead) (w : World) :
  let r := processPlace src niche0 city0 state0 today place leads w in
  let key := lead_key (place_id place) in
  (store (snd r) <> store w ->
   exists dd, place_details src (length (log w)) (place_id place) = Some dd
              /\ d_status dd = "OK"
              /\ Js.truthy_str (website (d_result dd)) = false
              /\ Js.truthy_str (formatted_phone_number (d_result dd)) = true)
  /\ (forall dd,
        place_details src (length (log w)) (place_id place) = Some dd ->
        Js.truthy_str (website (d_result dd)) = true ->
        fst r = Ret leads /\ store (snd r) = store w)
  /\ (forall dd,
        place_details src (length (log w)) (place_id place) = Some dd ->
        d_status dd = "OK" ->
        Js.truthy_str (website (d_result dd)) = false ->
        Js.truthy_str (formatted_phone_number (d_result dd)) = true ->
        faults w = [] ->
        exists stored,
          kv (store (snd r)) !! key = Some stored
          /\ (kv (store w) !! key = None ->
              stored = buildLead place (d_result dd) niche0 city0 state0 today
              /\ phone stored = default EmptyString (formatted_phone_number (d_result dd))
              /\ fst r = Ret (leads ++ [stored])
              /\ place_id place ∈ ids (store (snd r)))).
Proof.
  intros r key. subst r. rewrite processPlace_unfold. cbn zeta.
  set (w1 := logged w (ReqDetails (place_id place))).
  repeat split.
  - destruct (place_details _ _ _) as [dd|]; [|intros H; now elim H].
    destruct (String.eqb_spec (d_status dd) "OK") as [Hok|Hno]; cbn [andb];
      [|intros H; now elim H].
    destruct (qualifies (d_result dd)) eqn:Hq; [|intros H; now elim H].
    apply qualifies_iff in Hq as [Hw Hp]. intros _. eauto.
  - assert (Hq : qualifies (d_result dd) = false)
      by (unfold qualifies; rewrite H0; reflexivity).
    rewrite H, Hq, andb_false_r. reflexivity.
  - assert (Hq : qualifies (d_result dd) = false)
      by (unfold qualifies; rewrite H0; reflexivity).
    rewrite H, Hq, andb_false_r. reflexivity.
  - intros dd Hd Hok Hw Hp Hf.
    assert (Hq : qualifies (d_result dd) = true) by (apply qualifies_iff; auto).
    rewrite Hd, Hok, Hq, String.eqb_refl. cbn [andb].
    set (lead := buildLead place (d_result dd) niche0 city0 state0 today).
    assert (Hid : id lead = place_id place) by reflexivity.
    destruct (kv (store w) !! key) as [old|] eqn:E.
    + exists old. split; [|discriminate].
      destruct (upsert_present lead old leads w1) as [Hs _].
      { rewrite Hid. exact E. }
      rewrite Hs. exact E.
    + exists lead. rewrite (upsert_absent lead leads w1) by (rewrite ?Hid; assumption).
      cbn [fst snd store kv ids]. change (id lead) with (place_id place). fold key.
      split; [apply lookup_insert_eq|].
      intros _. repeat split.
      * subst lead. cbn [phone buildLead].
        unfold Js.or_str_default, Js.truthy_str in *.
        destruct (formatted_phone_number (d_result dd)) as [p|]; [|discriminate].
        cbn. destruct (String.eqb p ""); [discriminate|reflexivity].
      * unfold sadd. case_bool_decide; [assumption|].
        apply elem_of_app. right. apply list_elem_of_singleton. reflexivity.
Qed.

Lemma C2_witness :
  (exists stored,
     kv (store (snd (processPlace (details_source plumber_details)
                       "plumbers" "Houston" "TX" "2026-01-05"
                       plumber_place [] world0)))
       !! lead_key (place_id plumber_place) = Some stored
     /\ phone stored = "555-1234")
  /\ (fst (processPlace (details_source site_details)
             "plumbers" "Houston" "TX" "2026-01-05" plumber_place [] world0) = Ret []
      /\ store (snd (processPlace (details_source site_details)
                       "plumbers" "Houston" "TX" "2026-01-05"
                       plumber_place [] world0)) = store world0)
  /\ (exists dd,
        place_details (details_source plumber_details) 0 (place_id plumber_place) = Some dd
        /\ d_status dd = "OK"
        /\ Js.truthy_str (website (d_result dd)) = false
        /\ Js.truthy_str (formatted_phone_number (d_result dd)) = true).
Proof.
  pose proof (C2_qualifying_filter (details_source plumber_details)
                "plumbers" "Houston" "TX" "2026-01-05" plumber_place [] world0)
    as (Honly & _ & Hin).
  pose proof (C2_qualifying_filter (details_source site_details)
                "plumbers" "Houston" "TX" "2026-01-05" plumber_place [] world0)
    as (_ & Hout & _).
  split; [|split].
  - destruct (Hin {| d_status := "OK"; d_result := plumber_details |})
      as [stored [Hs Hfresh]]; try reflexivity.
    exists stored. split; [exact Hs|].
    destruct Hfresh as (_ & Hphone & _); [vm_compute; reflexivity | exact Hphone].
  - apply (Hout {| d_status := "OK"; d_result := site_details |}); reflexivity.
  - apply Honly. intros Heq. apply (f_equal ids) in Heq. vm_compute in Heq. discriminate.
Defined.

(** ** The identity key *)

(** C3 (as amended): the key under which a lead is stored and deduplicated
    is the place identifier of the primary source: a candidate changes the
    store at most under its own place identifier, and is dropped when that
    identifier is already stored. *)
Theorem C3_key_is_place_id (src : Source) (niche0 city0 state0 today : string)
    (place : PlaceObj) (leads : list Lead) (w : World) :
  let r := processPlace src niche0 city0 state0 today place leads w in
  (forall details,
     id (buildLead place details niche0 city0 state0 today) = place_id place)
  /\ (forall k, k <> lead_key (place_id place) ->
                kv (store (snd r)) !! k = kv (store w) !! k)
  /\ (forall i, i ∈ ids (store (snd r)) -> i ∈ ids (store w) \/ i = place_id place)
  /\ (is_Some (kv (store w) !! lead_key (place_id place)) -> store (snd r) = store w).
Proof.
  intros r. subst r. rewrite processPlace_unfold. cbn zeta.
  set (w1 := logged w (ReqDetails (place_id place))).
  split; [reflexivity|].
  destruct (place_details _ _ _) as [dd|]; [|cbn; auto].
  destruct (String.eqb (d_status dd) "OK" && qualifies (d_result dd)); [|cbn; auto].
  set (lead := buildLead place (d_result dd) niche0 city0 state0 today).
  destruct (upsert_frame lead leads w1) as (Hk & Hi & _ & _).
  repeat split.
  - exact Hk.
  - exact Hi.
  - intros [old Hold]. now destruct (upsert_present lead old leads w1 Hold).
Qed.

Lemma C3_witness :
  kv (store (snd (processPlace (details_source plumber_details)
                    "plumbers" "Houston" "TX" "2026-01-05"
                    plumber_place_again [] world1)))
    !! lead_key (place_id plumber_place)
  = kv (store world1) !! lead_key (place_id plumber_place)
  /\ store (snd (processPlace (details_source plumber_details)
                   "plumbers" "Houston" "TX" "2026-01-05"
                   plumber_place [] world1)) = store world1.
Proof.
  split.
  - apply (C3_key_is_place_id (details_source plumber_details)
             "plumbers" "Houston" "TX" "2026-01-05" plumber_place_again [] world1).
    vm_compute. discriminate.
  - apply (C3_key_is_place_id (details_source plumber_details)
             "plumbers" "Houston" "TX" "2026-01-05" plumber_place [] world1).
    exists demo_lead. vm_compute. reflexivity.
Defined.

(** The key is not a function of (name, city): one listing seen under two
    place identifiers is stored twice. *)
Lemma C3_counterexample :
  let a := buildLead plumber_place plumber_details "plumbers" "Houston" "TX" "2026-01-05" in
  let b := buildLead plumber_place_again plumber_details
             "plumbers" "Houston" "TX" "2026-01-05" in
  lead_name a = lead_name b /\ city a = city b
  /\ id a = place_id plumber_place /\ id b = place_id plumber_place_again
  /\ id a <> id b
  /\ ids (store (snd (processPlace (details_source plumber_details)
                        "plumbers" "Houston" "TX" "2026-01-05"
                        plumber_place_again [] world1)))
     = ["ChIJ-plumber-1"; "ChIJ-plumber-2"]
  /\ ~ key_is_hash_of_name_city.
Proof.
  cbn zeta. repeat split.
  - discriminate.
  - intros [h H].
    pose proof (H plumber_place plumber_details "plumbers" "Houston" "TX" "2026-01-05") as Ha.
    pose proof (H plumber_place_again plumber_details
                  "plumbers" "Houston" "TX" "2026-01-05") as Hb.
    cbn in Ha, Hb. rewrite <- Hb in Ha. discriminate.
Qed.

(** ** The pagination loop *)







Lemma pageLoop_unfold (fuel : nat) (src : Source) (niche0 city0 state0 today : string)
    (limit maxAttempts : JsNum) (token : option string) (attempts : Z)
    (leads : list Lead) (w : World) :
  pageLoop (S fuel) src niche0 city0 state0 today limit maxAttempts token attempts leads w =
  let tok := if Js.truthy_str token then token else None in
  let w1 := logged w (ReqSearch tok) in
  match textsearch src (length (log w)) tok with
  | None => (Throw, w1)
  | Some data =>
      if negb (status_ok data) then (Ret leads, w1)
      else
        match forPlaces src niche0 city0 state0 today limit
                (default [] (results data)) leads w1 with
        | (Ret leads', w2) =>
            if Js.truthy_str (next_page_token data)
               && num_lt (Z.of_nat (length leads')) limit
               && num_lt (attempts + 1) maxAttempts
            then pageLoop fuel src niche0 city0 state0 today limit maxAttempts
                   (next_page_token data) (attempts + 1) leads' w2
            else (Ret leads', w2)
        | (Throw, w2) => (Throw, w2)
        | (Diverge, w2) => (Diverge, w2)
        end
  end.
Proof.
  cbn [pageLoop]. unfold bind at 1. unfold fetch_search. cbn zeta.
  destruct (textsearch _ _ _) as [data|]; [|reflexivity].
  destruct (negb (status_ok data)); [reflexivity|].
  unfold bind.
  destruct (forPlaces _ _ _ _ _ _ _ _ _) as [[leads'| |] w2]; try reflexivity.
  destruct (_ && _ && _); reflexivity.
Qed.



Lemma POST_scrape_unfold (fuel : nat) (src : Source) (apiKey : option string)
    (today : string) (req : ScrapeRequest) (w : World) :
  Js.truthy_str (req_niche req) = true ->
  Js.truthy_str (req_city req) = true ->
  Js.truthy_str (req_state req) = true ->
  Js.truthy_str apiKey = true ->
  let limit := default (Fin 100) (req_limit req) in
  POST_scrape fuel src apiKey today req w =
  match pageLoop fuel src (Js.or_str_default (req_niche req) EmptyString)
          (Js.or_str_default (req_city req) EmptyString)
          (Js.or_str_default (req_state req) EmptyString)
          today limit (ceil_div20 limit) None 0 [] w with
  | (Ret ls, w') => (Ret (ScrapeJson (length ls) ls), w')
  | (Throw, w') => (Ret (ErrorJson 500 "Scraping failed"), w')
  | (Diverge, w') => (Diverge, w')
  end.
Proof.
  intros Hn Hc Hs Hk. unfold POST_scrape, try_catch. rewrite Hn, Hc, Hs, Hk. cbn.
  unfold bind. destruct (pageLoop _ _ _ _ _ _ _ _ _ _ _ _) as [[ls| |] w']; reflexivity.
Qed.

(** C8 (as amended): a page whose status is neither OK nor ZERO_RESULTS
    ends the pagination at once, and the handler answers success with the
    leads collected so far; a page whose fetch or decoding fails throws,
    and the handler answers 500 without them. *)
Theorem C8_error_status_stops_reject_fails (fuel : nat) (src : Source)
    (niche0 city0 state0 today : string) (limit maxAttempts : JsNum)
    (token : option string) (attempts : Z) (leads : list Lead) (w : World) :
  let tok := if Js.truthy_str token then token else None in
  (forall data,
     textsearch src (length (log w)) tok = Some data ->
     status data <> "OK" ->
     status data <> "ZERO_RESULTS" ->
     pageLoop (S fuel) src niche0 city0 state0 today limit maxAttempts
       token attempts leads w
     = (Ret leads, logged w (ReqSearch tok)))
  /\ (textsearch src (length (log w)) tok = None ->
      pageLoop (S fuel) src niche0 city0 state0 today limit maxAttempts
        token attempts leads w
      = (Throw, logged w (ReqSearch tok)))
  /\ (forall apiKey req w0 w',
        Js.truthy_str (req_niche req) = true ->
        Js.truthy_str (req_city req) = true ->
        Js.truthy_str (req_state req) = true ->
        Js.truthy_str apiKey = true ->
        let paged := pageLoop (S fuel) src
                     (Js.or_str_default (req_niche req) EmptyString)
                     (Js.or_str_default (req_city req) EmptyString)
                     (Js.or_str_default (req_state req) EmptyString)
                     today (default (Fin 100) (req_limit req))
                     (ceil_div20 (default (Fin 100) (req_limit req))) None 0 [] w0 in
        (paged = (Ret leads, w') ->
         POST_scrape (S fuel) src apiKey today req w0
         = (Ret (ScrapeJson (length leads) leads), w'))
        /\ (paged = (Throw, w') ->
            POST_scrape (S fuel) src apiKey today req w0
            = (Ret (ErrorJson 500 "Scraping failed"), w'))).
Proof.
  intros tok. split; [|split].
  - intros data Hpage Hok Hzero.
    rewrite pageLoop_unfold. cbn zeta. fold tok. rewrite Hpage.
    assert (Hs : status_ok data = false).
    { unfold status_ok. apply orb_false_iff. split; apply String.eqb_neq; assumption. }
    rewrite Hs. reflexivity.
  - intros Hpage. rewrite pageLoop_unfold. cbn zeta. fold tok. now rewrite Hpage.
  - intros apiKey req w0 w' Hn Hc Hs Hk paged. subst paged.
    split; intros Hloop; rewrite POST_scrape_unfold by assumption; cbn zeta;
      rewrite Hloop; reflexivity.
Qed.

Lemma C8_witness :
  pageLoop 2 two_page_source "plumbers" "Houston" "TX" "2026-01-05" (Fin 100) (Fin 5)
    (Some "page-2") 1 [demo_lead] world1
  = (Ret [demo_lead], logged world1 (ReqSearch (Some "page-2")))
  /\ pageLoop 2 undecodable_page_source "plumbers" "Houston" "TX" "2026-01-05"
       (Fin 100) (Fin 5) (Some "page-2") 1 [demo_lead] world1
     = (Throw, logged world1 (ReqSearch (Some "page-2")))
  /\ POST_scrape 2 two_page_source (Some "key") "2026-01-05" (plumber_request None) world0
     = (Ret (ScrapeJson 1 [demo_lead]),
        snd (POST_scrape 2 two_page_source (Some "key") "2026-01-05"
               (plumber_request None) world0))
  /\ POST_scrape 2 undecodable_page_source (Some "key") "2026-01-05"
       (plumber_request None) world0
     = (Ret (ErrorJson 500 "Scraping failed"),
        snd (POST_scrape 2 undecodable_page_source (Some "key") "2026-01-05"
               (plumber_request None) world0)).
Proof.
  pose proof (C8_error_status_stops_reject_fails 1 two_page_source "plumbers" "Houston"
                "TX" "2026-01-05" (Fin 100) (Fin 5) (Some "page-2") 1 [demo_lead]
                world1) as H1.
  pose proof (C8_error_status_stops_reject_fails 1 undecodable_page_source "plumbers"
                "Houston" "TX" "2026-01-05" (Fin 100) (Fin 5) (Some "page-2") 1
                [demo_lead] world1) as H2.
  cbn zeta in H1, H2.
  destruct H1 as (Hstatus & _ & Hpost1). destruct H2 as (_ & Hthrow & Hpost2).
  split; [apply (Hstatus error_page); [reflexivity|discriminate|discriminate]|].
  split; [apply Hthrow; reflexivity|].
  split.
  - apply (Hpost1 (Some "key") (plumber_request None) world0); reflexivity.
  - apply (Hpost2 (Some "key") (plumber_request None) world0); reflexivity.
Defined.

(** The undecodable second page against the claim: the lead of the first
    page has been collected and stored, yet the answer is the error 500
    and carries no lead. *)
Lemma C8_counterexample :
  let r := POST_scrape 10 undecodable_page_source (Some "key") "2026-01-05"
             (plumber_request None) world0 in
  fst r = Ret (ErrorJson 500 "Scraping failed")
  /\ fst r <> Ret (ScrapeJson 1 [demo_lead])
  /\ kv (store (snd r)) !! lead_key (id demo_lead) = Some demo_lead
  /\ log (snd r)
     = [ReqSearch None; ReqDetails "ChIJ-plumber-1"; ReqSearch (Some "page-2")].
Proof.
  cbn zeta. split; [reflexivity|]. split; [discriminate|].
  split; reflexivity.
Qed.

(** The whole handler on the two-page source: the lead of the first page
    is returned although the second page is an error, and no third page is
    asked for. *)
Example scrape_two_pages :
  let r := POST_scrape 10 two_page_source (Some "key") "2026-01-05"
             (plumber_request None) world0 in
  fst r = Ret (ScrapeJson 1 [demo_lead])
  /\ log (snd r) = [ReqSearch None; ReqDetails "ChIJ-plumber-1"; ReqSearch (Some "page-2")].
Proof. split; reflexivity. Qed.

(** ** Termination and the caps of the scrape *)







(** ** [GET /api/stats] *)

Lemma statsLoop_store (today : string) (leadIds : list string) :
  forall (c : Counts) (w : World),
    store (snd (statsLoop today leadIds c w)) = store w
    /\ ((exists c', fst (statsLoop today leadIds c w) = Ret c')
        \/ fst (statsLoop today leadIds c w) = Throw).
Proof.
  induction leadIds as [|i rest IH]; intros c [s f l]; cbn [statsLoop].
  - unfold ret. cbn. eauto.
  - unfold bind, kv_get, kv_call. cbn [store faults log].
    destruct f as [|[] f]; cbn [fst snd store]; [| auto |];
      destruct (kv s !! lead_key i); apply IH.
Qed.

(** A rejected KV call inside the loop makes the loop throw. *)
Lemma statsLoop_fault (today : string) (leadIds : list string) :
  forall (c : Counts) (w : World) (i : nat),
    (i < length leadIds)%nat ->
    faults w !! i = Some true ->
    fst (statsLoop today leadIds c w) = Throw.
Proof.
  induction leadIds as [|k rest IH]; intros c [s f l] i Hi Hf; cbn in Hi; [lia|].
  cbn [statsLoop]. unfold bind, kv_get, kv_call. cbn [store faults log] in *.
  destruct f as [|b f]; [discriminate|].
  destruct b; [reflexivity|].
  destruct i as [|j]; [discriminate|]. cbn in Hf.
  destruct (kv s !! lead_key k); apply (IH _ _ j); cbn; solve [lia | assumption].
Qed.

(** C10: the stats handler answers with a success response carrying
    counts for every store and every fault of the storage; after a fault,
    as for an empty store, all four counts are 0. *)
Theorem C10_stats_never_fail (today : string) (w : World) :
  let r := GET_stats today w in
  (exists t h m n, fst r = Ret (StatsJson t h m n))
  /\ store (snd r) = store w
  /\ (ids (store w) = [] -> fst r = Ret (StatsJson 0 0 0 0))
  /\ (forall i, (i <= length (ids (store w)))%nat -> faults w !! i = Some true ->
                fst r = Ret (StatsJson 0 0 0 0))
  /\ (fst (stats_body today w) = Throw -> fst r = Ret (StatsJson 0 0 0 0)).
Proof.
  destruct w as [s f l]. cbn zeta.
  unfold GET_stats, try_catch, stats_body, bind, kv_smembers, kv_call, ret.
  cbn [store faults log].
  set (body := fun f' : list bool =>
                 match statsLoop today (ids s) zero_counts
                         {| store := s; faults := f'; log := l |} with
                 | (Ret c, w') => (Ret (stats_json c), w')
                 | (Throw, w') => (@Throw Response, w')
                 | (Diverge, w') => (Diverge, w')
                 end).
  assert (Hbody : forall f',
             (exists t h m n, fst (match body f' with
                                   | (Throw, w') => (Ret (StatsJson 0 0 0 0), w')
                                   | r => r end) = Ret (StatsJson t h m n))
             /\ store (snd (match body f' with
                            | (Throw, w') => (Ret (StatsJson 0 0 0 0), w')
                            | r => r end)) = s
             /\ (fst (body f') = Throw ->
                 fst (match body f' with
                      | (Throw, w') => (Ret (StatsJson 0 0 0 0), w')
                      | r => r end) = Ret (StatsJson 0 0 0 0))).
  { intros f'. subst body. cbn beta.
    destruct (statsLoop_store today (ids s) zero_counts
                {| store := s; faults := f'; log := l |}) as [Hs [[c' Hc]|Ht]];
      destruct (statsLoop _ _ _ _) as [[c| |] w']; cbn in *;
      try discriminate; repeat split; eauto 6; try discriminate. }
  destruct f as [|[] f]; cbn [fst snd store faults].
  - destruct (ids s) as [|k rest] eqn:Hids.
    + cbn. repeat split; eauto 6.
    + destruct (Hbody []) as (Hex & Hst & Hthrow). subst body. cbn beta in *.
      repeat split; [exact Hex|exact Hst|discriminate| |exact Hthrow].
      intros i _ Hi. destruct i; discriminate.
  - cbn. repeat split; eauto 6.
  - destruct (ids s) as [|k rest] eqn:Hids.
    + cbn. repeat split; eauto 6.
    + destruct (Hbody f) as (Hex & Hst & Hthrow). subst body. cbn beta in *.
      repeat split; [exact Hex|exact Hst|discriminate| |exact Hthrow].
      intros i Hi Hf. destruct i as [|j]; [discriminate|]. cbn in Hf, Hi.
      apply Hthrow.
      assert (E : fst (statsLoop today (k :: rest) zero_counts
                         {| store := s; faults := f; log := l |}) = Throw).
      { apply (statsLoop_fault _ _ _ _ j); [cbn; lia | exact Hf]. }
      destruct (statsLoop _ _ _ _) as [[c| |] w']; cbn in *; congruence.
Qed.

Lemma C10_witness :
  fst (GET_stats "2026-01-05" world0) = Ret (StatsJson 0 0 0 0)
  /\ fst (GET_stats "2026-01-05" faulty_world1) = Ret (StatsJson 0 0 0 0)
  /\ fst (stats_body "2026-01-05" faulty_world1) = Throw.
Proof.
  destruct (C10_stats_never_fail "2026-01-05" world0) as (_ & _ & Hempty & _ & Hthrow0).
  destruct (C10_stats_never_fail "2026-01-05" faulty_world1) as (_ & _ & _ & Hfault & Hthrow).
  split; [apply Hempty; reflexivity|].
  split; [apply (Hfault 1%nat); [vm_compute; lia | reflexivity] | reflexivity].
Defined.

(** A healthy store yields its counts: one lead, HOT, added today. *)
Example stats_of_world1 :
  fst (GET_stats "2026-01-05" world1) = Ret (StatsJson 1 1 0 1).
Proof. reflexivity. Qed.

(** ** [GET /api/export] *)

Lemma loadLeads_store (leadIds : list string) :
  forall (acc : list Lead) (w : World),
    store (snd (loadLeads leadIds acc w)) = store w
    /\ fst (loadLeads leadIds acc w) <> Diverge.
Proof.
  induction leadIds as [|i rest IH]; intros acc [s f l]; cbn [loadLeads].
  - unfold ret. cbn. split; [reflexivity|discriminate].
  - unfold bind, kv_get, kv_call. cbn [store faults log].
    destruct f as [|[] f]; cbn [fst snd store];
      [| split; [reflexivity|discriminate] |];
      destruct (kv s !! lead_key i); apply IH.
Qed.

Lemma loadLeads_nofault (s : Store) (l : list Request) (leadIds : list string) :
  forall acc : list Lead,
    loadLeads leadIds acc {| store := s; faults := []; log := l |}
    = (Ret (acc ++ omap (fun i => kv s !! lead_key i) leadIds),
       {| store := s; faults := []; log := l |}).
Proof.
  induction leadIds as [|i rest IH]; intros acc; cbn [loadLeads omap list_omap].
  - unfold ret. now rewrite app_nil_r.
  - unfold bind, kv_get, kv_call. cbn [store faults log].
    destruct (kv s !! lead_key i) as [lead|]; rewrite IH; [|reflexivity].
    now rewrite <- app_assoc.
Qed.

Lemma GET_export_store (w : World) : store (snd (GET_export w)) = store w.
Proof.
  destruct w as [s f l].
  unfold GET_export, try_catch, bind, kv_smembers, kv_call, ret. cbn [store faults log].
  destruct f as [|[] f]; cbn [fst snd store]; [| reflexivity |].
  - destruct (loadLeads_store (ids s) [] {| store := s; faults := []; log := l |})
      as [Hs _].
    destruct (loadLeads _ _ _) as [[ls| |] w']; exact Hs.
  - destruct (loadLeads_store (ids s) [] {| store := s; faults := f; log := l |})
      as [Hs _].
    destruct (loadLeads _ _ _) as [[ls| |] w']; exact Hs.
Qed.

Lemma GET_export_nofault (w : World) :
  faults w = [] ->
  GET_export w = (Ret (CsvBody (csv_of (sort_by_score (stored_leads (store w))))), w).
Proof.
  destruct w as [s f l]. cbn. intros ->.
  unfold GET_export, try_catch, bind, kv_smembers, kv_call, ret. cbn [store faults log].
  rewrite loadLeads_nofault. reflexivity.
Qed.

(** *** The sort *)

Lemma insert_by_score_Forall (P : Lead -> Prop) (x : Lead) (l : list Lead) :
  P x -> Forall P l -> Forall P (insert_by_score x l).
Proof.
  intros Hx Hl. induction Hl as [|y r Hy Hr IH]; cbn.
  - now constructor.
  - destruct (lead_score x <? lead_score y); repeat constructor; assumption.
Qed.

Lemma insert_by_score_sorted (x : Lead) (l : list Lead) :
  score_sorted l -> score_sorted (insert_by_score x l).
Proof.
  unfold score_sorted. intros Hl. induction Hl as [|y r Hr IH Hy]; cbn.
  - repeat constructor.
  - destruct (Z.ltb_spec (lead_score x) (lead_score y)) as [Hlt|Hge].
    + constructor; [exact IH|].
      apply insert_by_score_Forall; [lia | exact Hy].
    + constructor; [now constructor|].
      constructor; [lia|].
      eapply List.Forall_impl; [|exact Hy]. cbn. intros z Hz. lia.
Qed.

Lemma sort_by_score_sorted (l : list Lead) : score_sorted (sort_by_score l).
Proof.
  induction l as [|x l IH]; cbn.
  - constructor.
  - now apply insert_by_score_sorted.
Qed.

Lemma insert_by_score_perm (x : Lead) (l : list Lead) :
  Permutation (x :: l) (insert_by_score x l).
Proof.
  induction l as [|y r IH]; cbn; [reflexivity|].
  destruct (lead_score x <? lead_score y); [|reflexivity].
  rewrite perm_swap. now constructor.
Qed.

Lemma sort_by_score_perm (l : list Lead) : Permutation l (sort_by_score l).
Proof.
  induction l as [|x l IH]; cbn; [reflexivity|].
  rewrite <- insert_by_score_perm. now constructor.
Qed.

(** The sort is stable: leads of one score keep their relative order. *)
Lemma insert_by_score_stable (s : Z) (x : Lead) (l : list Lead) :
  with_score s (insert_by_score x l) = with_score s (x :: l).
Proof.
  unfold with_score. induction l as [|y r IH]; [reflexivity|].
  cbn [insert_by_score].
  destruct (Z.ltb_spec (lead_score x) (lead_score y)) as [Hlt|Hge]; [|reflexivity].
  cbn [List.filter] in *. rewrite IH.
  destruct (Z.eqb_spec (lead_score x) s) as [Hx|Hx];
    destruct (Z.eqb_spec (lead_score y) s) as [Hy|Hy]; try reflexivity.
  lia.
Qed.

Lemma sort_by_score_stable (s : Z) (l : list Lead) :
  with_score s (sort_by_score l) = with_score s l.
Proof.
  induction l as [|x l IH]; [reflexivity|].
  cbn [sort_by_score foldr]. fold (sort_by_score l).
  rewrite insert_by_score_stable. unfold with_score in *. cbn [List.filter].
  now rewrite IH.
Qed.

(** C5 (as amended): the export never changes the store, and with a
    healthy storage a second export of the unchanged store gives the same
    bytes; the rows are the stored leads in the order of enumeration of the
    id set, sorted stably by score descending: ties keep the order of
    enumeration. *)
Theorem C5_export_pure_and_repeatable (w : World) :
  let rows := sort_by_score (stored_leads (store w)) in
  store (snd (GET_export w)) = store w
  /\ (faults w = [] ->
      GET_export w = (Ret (CsvBody (csv_of rows)), w)
      /\ GET_export (snd (GET_export w)) = GET_export w)
  /\ score_sorted rows
  /\ Permutation (stored_leads (store w)) rows
  /\ (forall s, with_score s rows = with_score s (stored_leads (store w))).
Proof.
  cbn zeta. split; [apply GET_export_store|].
  split.
  - intros Hf. rewrite (GET_export_nofault w Hf). cbn [snd].
    split; [reflexivity | apply GET_export_nofault, Hf].
  - split; [apply sort_by_score_sorted|].
    split; [apply sort_by_score_perm|].
    intros s. apply sort_by_score_stable.
Qed.

Lemma C5_witness :
  GET_export tie_world
  = (Ret (CsvBody (csv_of (sort_by_score (stored_leads (store tie_world))))), tie_world)
  /\ GET_export (snd (GET_export tie_world)) = GET_export tie_world.
Proof.
  apply (C5_export_pure_and_repeatable tie_world). reflexivity.
Defined.

(** Two leads of score 27: the export lists the later identifier first,
    so ties are not broken by identity key ascending; and the same entries
    enumerated the other way round export to different bytes. *)
Lemma C5_counterexample :
  let rows := sort_by_score (stored_leads (store tie_world)) in
  map id rows = ["ChIJ-plumber-2"; "ChIJ-plumber-1"]
  /\ map lead_score rows = [27; 27]
  /\ score_then_key_sorted rows = false
  /\ kv (store tie_world_swapped) = kv (store tie_world)
  /\ Permutation (ids (store tie_world_swapped)) (ids (store tie_world))
  /\ fst (GET_export tie_world_swapped) <> fst (GET_export tie_world).
Proof.
  cbn zeta.
  split; [reflexivity|]. split; [reflexivity|]. split; [reflexivity|].
  split; [reflexivity|]. split; [apply perm_swap|].
  intros H. vm_compute in H. discriminate H.
Qed.

(** *** When the order of enumeration does not matter

    Two lists sorted by score that hold the same leads are equal as soon
    as no two of the leads share a score; the export of such a store is
    one text, however the id set is enumerated. *)

Lemma score_sorted_unique (l1 : list Lead) :
  forall l2 : list Lead,
    score_sorted l1 -> score_sorted l2 -> Permutation l1 l2 ->
    (forall a b, In a l1 -> In b l1 -> lead_score a = lead_score b -> a = b) ->
    l1 = l2.
Proof.
  unfold score_sorted.
  induction l1 as [|a r1 IH]; intros l2 H1 H2 Hp Hinj.
  - now apply Permutation_nil in Hp.
  - destruct l2 as [|b r2]; [now apply Permutation_sym, Permutation_nil in Hp|].
    inversion H1 as [|? ? Hr1 Ha]; subst. inversion H2 as [|? ? Hr2 Hb]; subst.
    assert (Hab : a = b).
    { assert (Hin_a : In a (b :: r2)) by (eapply Permutation_in; [exact Hp|now left]).
      assert (Hin_b : In b (a :: r1))
        by (eapply Permutation_in; [symmetry; exact Hp|now left]).
      destruct Hin_a as [->|Hin_a]; [reflexivity|].
      destruct Hin_b as [->|Hin_b]; [reflexivity|].
      rewrite List.Forall_forall in Ha, Hb.
      apply Hinj; [now left | now right |].
      specialize (Ha b Hin_b). specialize (Hb a Hin_a). lia. }
    subst b. f_equal.
    apply IH; [assumption|assumption|now apply Permutation_cons_inv in Hp|].
    intros x y Hx Hy. apply Hinj; now right.
Qed.

Lemma export_order_independent (s1 s2 : Store) (l1 l2 : list Request) :
  kv s1 = kv s2 ->
  Permutation (ids s1) (ids s2) ->
  (forall a b, In a (stored_leads s1) -> In b (stored_leads s1) ->
               lead_score a = lead_score b -> a = b) ->
  fst (GET_export {| store := s1; faults := []; log := l1 |})
  = fst (GET_export {| store := s2; faults := []; log := l2 |}).
Proof.
  intros Hkv Hids Hinj.
  rewrite !GET_export_nofault by reflexivity. cbn [fst store].
  do 3 f_equal.
  assert (Hp : Permutation (stored_leads s1) (stored_leads s2)).
  { unfold stored_leads. rewrite Hkv. now apply omap_Permutation. }
  apply score_sorted_unique.
  - apply sort_by_score_sorted.
  - apply sort_by_score_sorted.
  - rewrite <- !sort_by_score_perm. exact Hp.
  - intros a b Ha Hb. apply Hinj.
    + eapply Permutation_in; [symmetry; apply sort_by_score_perm | exact Ha].
    + eapply Permutation_in; [symmetry; apply sort_by_score_perm | exact Hb].
Qed.

(** *** The CSV text *)

Lemma escape_quotes_escaped (t : string) :
  forall b, quotes_escaped_after b (escape_quotes t) = true.
Proof.
  induction t as [|c r IH]; intros b; [reflexivity|].
  cbn [escape_quotes].
  destruct (Ascii.eqb c dquote) eqn:E; cbn [quotes_escaped_after].
  - change (Ascii.eqb backslash dquote) with false.
    change (Ascii.eqb backslash backslash) with true.
    cbn [quotes_escaped_after]. rewrite Ascii.eqb_refl. cbn. apply IH.
  - rewrite E. apply IH.
Qed.

Lemma escape_quotes_head (t : string) :
  match escape_quotes t with
  | String c _ => Ascii.eqb c dquote = false
  | EmptyString => True
  end.
Proof.
  destruct t as [|c r]; [exact I|]. cbn [escape_quotes].
  destruct (Ascii.eqb c dquote) eqn:E; [reflexivity | exact E].
Qed.

Lemma unescape_escape (t : string) : unescape_quotes (escape_quotes t) = t.
Proof.
  induction t as [|c r IH]; [reflexivity|].
  cbn [escape_quotes].
  destruct (Ascii.eqb c dquote) eqn:E.
  - apply Ascii.eqb_eq in E. subst c.
    cbn [unescape_quotes]. rewrite !Ascii.eqb_refl. cbn [andb]. now rewrite IH.
  - pose proof (escape_quotes_head r) as Hh.
    cbn [unescape_quotes]. fold unescape_quotes.
    destruct (escape_quotes r) as [|c' r'] eqn:Er.
    + destruct r as [|c0 r0]; [reflexivity|].
      cbn in Er. destruct (Ascii.eqb c0 dquote); discriminate.
    + rewrite Hh, andb_false_r.
      change (String c (unescape_quotes (String c' r')) = String c r).
      now rewrite IH.
Qed.

(** C6 (as amended): the header row is the ten fields name, phone, niche,
    city, state, address, rating, review_count, lead_score, gmb_link, in
    that order, without date_added; every cell of every data row, text or
    number, stands between double quotes with a backslash in front of each
    embedded quote. *)
Theorem C6_csv_header_and_cells :
  headers = ["name"; "phone"; "niche"; "city"; "state"; "address"; "rating";
             "review_count"; "lead_score"; "gmb_link"]
  /\ (forall leads,
        csv_of leads
        = join newline
            ("name,phone,niche,city,state,address,rating,review_count,lead_score,gmb_link"
               :: map (fun lead => join "," (map (cell lead) headers)) leads))
  /\ (forall lead h,
        let text := cell_text (lead_prop lead h) in
        cell lead h = String dquote (escape_quotes text +:+ String dquote EmptyString)
        /\ quotes_escaped (escape_quotes text) = true
        /\ unescape_quotes (escape_quotes text) = text)
  /\ (forall lead,
        map (fun h => cell_text (lead_prop lead h))
          ["name"; "phone"; "niche"; "city"; "state"; "address"; "gmb_link"]
        = [lead_name lead; phone lead; niche lead; city lead; state lead;
           address lead; gmb_link lead])
  /\ (forall w, faults w = [] ->
                fst (GET_export w)
                = Ret (CsvBody (csv_of (sort_by_score (stored_leads (store w)))))).
Proof.
  split; [reflexivity|]. split; [reflexivity|].
  split.
  - intros lead h text. split; [reflexivity|].
    split; [apply escape_quotes_escaped | apply unescape_escape].
  - split; [reflexivity|].
    intros w Hf. now rewrite GET_export_nofault.
Qed.

Lemma C6_witness :
  fst (GET_export world1)
  = Ret (CsvBody (csv_of (sort_by_score (stored_leads (store world1))))).
Proof.
  apply C6_csv_header_and_cells. reflexivity.
Defined.

(** The header row as exported has no date_added column. *)
Lemma C6_counterexample :
  fst (GET_export world0)
  = Ret (CsvBody "name,phone,niche,city,state,address,rating,review_count,lead_score,gmb_link")
  /\ join "," headers <> join "," spec_headers
  /\ headers <> spec_headers
  /\ ~ In "date_added" headers.
Proof.
  split; [reflexivity|].
  split; [intros H; vm_compute in H; discriminate H|].
  split; [discriminate|].
  cbn. intros H. repeat (destruct H as [H|H]; [discriminate H|]). exact H.
Qed.

(** Escaping the text A, quote, B, quote, C. *)
Example escape_quotes_example :
  escape_quotes (String "A" (String dquote (String "B" (String dquote "C"))))
  = String "A" (String backslash (String dquote
      (String "B" (String backslash (String dquote "C"))))).
Proof. reflexivity. Qed.

(** * Further properties of the handlers *)

(** ** What a run of the scrape can do to the store *)

Lemma lead_key_inj (i j : string) : lead_key i = lead_key j -> i = j.
Proof. unfold lead_key. cbn. intros H. now inversion H. Qed.

Lemma built_facts (lead : Lead) :
  built lead ->
  lead_website lead = EmptyString /\ phone lead <> EmptyString
  /\ 1 <= lead_score lead <= 29.
Proof.
  intros (place & details & n & c & s & t & Hq & ->).
  apply qualifies_iff in Hq as [_ Hp].
  split; [reflexivity|]. split.
  - cbn. unfold Js.truthy_str, Js.or_str_default in *.
    destruct (formatted_phone_number details) as [p|]; [|discriminate].
    destruct (String.eqb_spec p ""); [discriminate|assumption].
  - cbn [lead_score buildLead]. unfold calculateLeadScore.
    pose proof (term_ranges
                  (Js.num_or (user_ratings_total (spread place details)) 0)
                  (Js.q_or (rating (spread place details)) 0)
                  (website (spread place details)) n) as (Ha & Hb & Hc & Hd).
    lia.
Qed.

Ltac passed :=
  unfold calls_passed; cbn;
  first [ now (exists 0%nat) | now (exists 1%nat)
        | now (exists 2%nat) | now (exists 3%nat) ].

Ltac upsert_case :=
  split; [reflexivity|];
  first [ left; split; [reflexivity|];
          first [ right; reflexivity | left; repeat split; [passed | eauto] ]
        | right; left; repeat split; reflexivity
        | right; right; repeat split; passed ].

(** The three ways an [upsert] can end, whatever the faults. *)
Lemma upsert_cases (lead : Lead) (leads : list Lead) (w : World) :
  let r := upsert lead leads w in
  log (snd r) = log w
  /\ ((store (snd r) = store w
       /\ ((fst r = Ret leads /\ calls_passed w (snd r)
            /\ is_Some (kv (store w) !! lead_key (id lead)))
           \/ fst r = Throw))
      \/ (kv (store w) !! lead_key (id lead) = None
          /\ store (snd r)
             = {| kv := <[lead_key (id lead) := lead]> (kv (store w));
                  ids := ids (store w) |}
          /\ fst r = Throw)
      \/ (kv (store w) !! lead_key (id lead) = None
          /\ store (snd r) = add_lead (store w) lead
          /\ fst r = Ret (leads ++ [lead])
          /\ calls_passed w (snd r))).
Proof.
  destruct w as [s f l]. cbn zeta. unfold_kv. unfold add_lead.
  destruct (kv s !! lead_key (id lead)) as [old|] eqn:E.
  - destruct f as [|[] f]; cbn; rewrite ?E; cbn; upsert_case.
  - split_faults f; cbn; rewrite ?E; cbn; upsert_case.
Qed.

Section ScrapeSteps.

(** A relation between the store before and after, closed under the two
    writes of [upsert] for a built lead on a free key. *)
Variable R : Store -> Store -> Prop.
Hypothesis R_refl : forall s, R s s.
Hypothesis R_trans : forall s1 s2 s3, R s1 s2 -> R s2 s3 -> R s1 s3.
Hypothesis R_set : forall s lead,
    built lead -> kv s !! lead_key (id lead) = None ->
    R s {| kv := <[lead_key (id lead) := lead]> (kv s); ids := ids s |}.
Hypothesis R_add : forall s lead,
    built lead -> kv s !! lead_key (id lead) = None -> R s (add_lead s lead).

Lemma upsert_R (lead : Lead) (leads : list Lead) (w : World) :
  built lead -> R (store w) (store (snd (upsert lead leads w))).
Proof.
  intros Hb.
  destruct (upsert_cases lead leads w) as [_ [[-> _]|[(Hn & -> & _)|(Hn & -> & _)]]];
    auto.
Qed.

Lemma processPlace_R (src : Source) (niche0 city0 state0 today : string)
    (place : PlaceObj) (leads : list Lead) (w : World) :
  R (store w)
    (store (snd (processPlace src niche0 city0 state0 today place leads w))).
Proof.
  rewrite processPlace_unfold. cbn zeta.
  destruct (place_details _ _ _) as [dd|]; [|apply R_refl].
  destruct (String.eqb (d_status dd) "OK"); cbn [andb]; [|apply R_refl].
  destruct (qualifies (d_result dd)) eqn:Hq; [|apply R_refl].
  apply (upsert_R _ leads (logged w (ReqDetails (place_id place)))).
  now exists place, (d_result dd), niche0, city0, state0, today.
Qed.

Lemma forPlaces_R (src : Source) (niche0 city0 state0 today : string) (limit : JsNum)
    (places : list PlaceObj) :
  forall (leads : list Lead) (w : World),
    R (store w)
      (store (snd (forPlaces src niche0 city0 state0 today limit places leads w))).
Proof.
  induction places as [|place rest IH]; intros leads w; cbn [forPlaces].
  - apply R_refl.
  - destruct (num_ge (Z.of_nat (length leads)) limit); [apply R_refl|].
    unfold bind.
    pose proof (processPlace_R src niche0 city0 state0 today place leads w) as H1.
    destruct (processPlace _ _ _ _ _ _ _ _) as [[leads'| |] w1]; cbn [snd] in *;
      [|assumption|assumption].
    eapply R_trans; [exact H1 | apply IH].
Qed.

Lemma pageLoop_R (src : Source) (niche0 city0 state0 today : string)
    (limit maxAttempts : JsNum) (fuel : nat) :
  forall (token : option string) (attempts : Z) (leads : list Lead) (w : World),
    R (store w)
      (store (snd (pageLoop fuel src niche0 city0 state0 today limit maxAttempts
                     token attempts leads w))).
Proof.
  induction fuel as [|fuel IH]; intros token attempts leads w; [apply R_refl|].
  rewrite pageLoop_unfold. cbn zeta.
  set (w1 := logged w (ReqSearch (if Js.truthy_str token then token else None))).
  destruct (textsearch _ _ _) as [data|]; [|apply R_refl].
  destruct (negb (status_ok data)); [apply R_refl|].
  pose proof (forPlaces_R src niche0 city0 state0 today limit
                (default [] (results data)) leads w1) as H1.
  destruct (forPlaces _ _ _ _ _ _ _ _ _) as [[leads'| |] w2]; cbn [snd] in *;
    [|assumption|assumption].
  destruct (_ && _ && _); [|assumption].
  eapply R_trans; [exact H1 | apply IH].
Qed.

Lemma POST_scrape_R (fuel : nat) (src : Source) (apiKey : option string)
    (today : string) (req : ScrapeRequest) (w : World) :
  R (store w) (store (snd (POST_scrape fuel src apiKey today req w))).
Proof.
  unfold POST_scrape, try_catch.
  destruct (_ || _ || _); [apply R_refl|].
  destruct (negb (Js.truthy_str apiKey)); [apply R_refl|].
  unfold bind.
  match goal with
  | |- context [pageLoop ?f ?s ?n ?c ?st ?t ?l ?m ?tok ?a ?ls ?w0] =>
      pose proof (pageLoop_R s n c st t l m f tok a ls w0) as H1;
      destruct (pageLoop f s n c st t l m tok a ls w0) as [[leads| |] w1]
  end; exact H1.
Qed.

End ScrapeSteps.

Lemma sadd_In (i j : string) (l : list string) : In j (sadd i l) <-> In j l \/ j = i.
Proof.
  unfold sadd. case_bool_decide as Hi.
  - split; [auto|]. intros [H| ->]; [assumption|]. now apply list_elem_of_In.
  - rewrite in_app_iff. cbn. intuition.
Qed.

Lemma sadd_NoDup (i : string) (l : list string) : NoDup l -> NoDup (sadd i l).
Proof.
  intros Hl. unfold sadd. case_bool_decide as Hi; [assumption|].
  apply NoDup_app. split; [assumption|].
  split; [|apply NoDup_singleton].
  intros x Hx Hx'. apply list_elem_of_singleton in Hx'. now subst.
Qed.

Lemma sadd_extends (i : string) (l : list string) : exists more, sadd i l = l ++ more.
Proof.
  unfold sadd. case_bool_decide; [exists []; now rewrite app_nil_r | eauto].
Qed.

(** X1: whatever the source answers and whichever storage calls fail, a
    scrape leaves every stored value a qualified lead under the key of its
    own id: a phone, no website, a score from 1 to 29. *)
Theorem X1_scrape_keeps_leads_wellformed (fuel : nat) (src : Source)
    (apiKey : option string) (today : string) (req : ScrapeRequest) (w : World) :
  leads_wellformed (store w) ->
  leads_wellformed (store (snd (POST_scrape fuel src apiKey today req w))).
Proof.
  apply (POST_scrape_R (fun s s' => leads_wellformed s -> leads_wellformed s')).
  - auto.
  - auto.
  - intros s lead Hb Hn Hs k l. cbn. rewrite lookup_insert.
    case_decide as Hk; [|apply Hs].
    intros [= <-]. split; [now symmetry|]. now apply built_facts.
  - intros s lead Hb Hn Hs k l. cbn. rewrite lookup_insert.
    case_decide as Hk; [|apply Hs].
    intros [= <-]. split; [now symmetry|]. now apply built_facts.
Qed.

Lemma X1_witness :
  leads_wellformed
    (store (snd (POST_scrape 10 two_page_source (Some "key") "2026-01-05"
                   (plumber_request None) world0))).
Proof.
  apply X1_scrape_keeps_leads_wellformed.
  intros k l H. vm_compute in H. discriminate H.
Defined.

(** X2: a scrape keeps the id set free of repetitions and listing only
    ids whose lead is stored, under every fault of the storage. *)
Theorem X2_scrape_keeps_listing (fuel : nat) (src : Source)
    (apiKey : option string) (today : string) (req : ScrapeRequest) (w : World) :
  listing_ok (store w) ->
  listing_ok (store (snd (POST_scrape fuel src apiKey today req w))).
Proof.
  apply (POST_scrape_R (fun s s' => listing_ok s -> listing_ok s')).
  - auto.
  - auto.
  - intros s lead Hb Hn [Hnd Hl]. split; [exact Hnd|]. cbn. intros i Hi.
    rewrite lookup_insert. case_decide; [eauto | now apply Hl].
  - intros s lead Hb Hn [Hnd Hl]. split; cbn.
    + now apply sadd_NoDup.
    + intros i Hi. rewrite lookup_insert. case_decide; [eauto|].
      apply sadd_In in Hi as [Hi| ->]; [now apply Hl | congruence].
Qed.

Lemma X2_witness :
  listing_ok
    (store (snd (POST_scrape 10 two_page_source (Some "key") "2026-01-05"
                   (plumber_request None) world0))).
Proof.
  apply X2_scrape_keeps_listing.
  split; [apply NoDup_nil_2 | intros i []].
Defined.

(** X3: a scrape only adds: every value stored before is still stored,
    unchanged, afterwards, and every id in the id set before is still in
    it; this holds for every outcome, failures included. *)
Theorem X3_scrape_only_adds (fuel : nat) (src : Source)
    (apiKey : option string) (today : string) (req : ScrapeRequest) (w : World) :
  let s' := store (snd (POST_scrape fuel src apiKey today req w)) in
  (forall k v, kv (store w) !! k = Some v -> kv s' !! k = Some v)
  /\ (forall i, In i (ids (store w)) -> In i (ids s')).
Proof.
  apply (POST_scrape_R
           (fun s s' => (forall k v, kv s !! k = Some v -> kv s' !! k = Some v)
                        /\ (forall i, In i (ids s) -> In i (ids s')))).
  - intros s. split; auto.
  - intros s1 s2 s3 [H1 E1] [H2 E2]. split; auto.
  - intros s lead Hb Hn. cbn. split; [|auto].
    intros k v Hk. rewrite lookup_insert_ne; [assumption|congruence].
  - intros s lead Hb Hn. cbn. split.
    + intros k v Hk. rewrite lookup_insert_ne; [assumption|congruence].
    + intros i Hi. apply sadd_In. now left.
Qed.

Lemma X3_witness :
  kv (store (snd (POST_scrape 10 two_page_source (Some "key") "2026-01-05"
                    (plumber_request None) world1)))
    !! lead_key (id demo_lead) = Some demo_lead
  /\ In (id demo_lead)
       (ids (store (snd (POST_scrape 10 two_page_source (Some "key") "2026-01-05"
                           (plumber_request None) world1)))).
Proof.
  split.
  - apply X3_scrape_only_adds. vm_compute. reflexivity.
  - apply X3_scrape_only_adds. vm_compute. auto.
Defined.

(** ** What a successful scrape has done *)

Lemma calls_passed_refl (w : World) : calls_passed w w.
Proof. now exists 0%nat. Qed.

Lemma calls_passed_trans (w1 w2 w3 : World) :
  calls_passed w1 w2 -> calls_passed w2 w3 -> calls_passed w1 w3.
Proof.
  intros [k1 H1] [k2 H2]. exists (k1 + k2)%nat.
  now rewrite H1, H2, repeat_app, app_assoc.
Qed.

Lemma fresh_run_app (new1 new2 : list Lead) :
  forall s, fresh_run s new1 -> fresh_run (foldl add_lead s new1) new2 ->
            fresh_run s (new1 ++ new2).
Proof.
  induction new1 as [|l r IH]; intros s H1 H2; cbn in *; [assumption|].
  destruct H1 as (Hb & Hn & Hr). auto.
Qed.

Lemma ran_ok_refl (w w' : World) (leads : list Lead) :
  store w' = store w -> calls_passed w w' -> ran_ok w leads w' leads.
Proof.
  intros Hs Hc. exists []. now rewrite app_nil_r.
Qed.

Lemma ran_ok_trans (w1 w2 w3 : World) (l1 l2 l3 : list Lead) :
  ran_ok w1 l1 w2 l2 -> ran_ok w2 l2 w3 l3 -> ran_ok w1 l1 w3 l3.
Proof.
  intros (n1 & -> & S1 & F1 & C1) (n2 & -> & S2 & F2 & C2).
  exists (n1 ++ n2). rewrite app_assoc, foldl_app, <- S1.
  repeat split; [assumption| |eapply calls_passed_trans; eassumption].
  apply fresh_run_app; [assumption|]. now rewrite <- S1.
Qed.

Lemma processPlace_ret (src : Source) (niche0 city0 state0 today : string)
    (place : PlaceObj) (leads ls : list Lead) (w : World) :
  let r := processPlace src niche0 city0 state0 today place leads w in
  fst r = Ret ls -> ran_ok w leads (snd r) ls.
Proof.
  cbn zeta. rewrite processPlace_unfold. cbn zeta.
  set (w1 := logged w (ReqDetails (place_id place))).
  assert (H01 : ran_ok w leads w1 leads)
    by (apply ran_ok_refl; [reflexivity | now exists 0%nat]).
  destruct (place_details _ _ _) as [dd|]; [|discriminate].
  destruct (String.eqb (d_status dd) "OK"); cbn [andb];
    [|intros [= <-]; exact H01].
  destruct (qualifies (d_result dd)) eqn:Hq; [|intros [= <-]; exact H01].
  set (lead := buildLead place (d_result dd) niche0 city0 state0 today).
  assert (Hb : built lead)
    by (now exists place, (d_result dd), niche0, city0, state0, today).
  destruct (upsert_cases lead leads w1)
    as [_ [[Hs [(Hr & Hc & _)|Hr]]|[(_ & _ & Hr)|(Hn & Hs & Hr & Hc)]]];
    rewrite Hr; intros [= <-].
  - apply (ran_ok_trans _ _ _ _ _ _ H01). now apply ran_ok_refl.
  - apply (ran_ok_trans _ _ _ _ _ _ H01).
    exists [lead]. cbn [foldl fresh_run]. repeat split; assumption.
Qed.

Lemma forPlaces_ret (src : Source) (niche0 city0 state0 today : string)
    (limit : JsNum)
    (places : list PlaceObj) :
  forall (leads ls : list Lead) (w : World),
    let r := forPlaces src niche0 city0 state0 today limit places leads w in
    fst r = Ret ls -> ran_ok w leads (snd r) ls.
Proof.
  induction places as [|place rest IH]; intros leads ls w; cbn zeta; cbn [forPlaces].
  - intros [= <-]. apply ran_ok_refl; [reflexivity | now exists 0%nat].
  - destruct (num_ge (Z.of_nat (length leads)) limit).
    { intros [= <-]. apply ran_ok_refl; [reflexivity | now exists 0%nat]. }
    unfold bind.
    pose proof (fun ls0 => processPlace_ret src niche0 city0 state0 today place
                             leads ls0 w) as H1.
    cbn zeta in H1.
    destruct (processPlace _ _ _ _ _ _ _ _) as [[leads'| |] w1]; cbn [fst snd] in *;
      [|discriminate|discriminate].
    intros Hr. eapply ran_ok_trans; [apply (H1 leads' eq_refl) | now apply IH].
Qed.

Lemma pageLoop_ret (src : Source) (niche0 city0 state0 today : string)
    (limit maxAttempts : JsNum) (fuel : nat) :
  forall (token : option string) (attempts : Z) (leads ls : list Lead) (w : World),
    let r := pageLoop fuel src niche0 city0 state0 today limit maxAttempts
               token attempts leads w in
    fst r = Ret ls -> ran_ok w leads (snd r) ls.
Proof.
  induction fuel as [|fuel IH]; intros token attempts leads ls w; cbn zeta;
    [discriminate|].
  rewrite pageLoop_unfold. cbn zeta.
  set (w1 := logged w (ReqSearch (if Js.truthy_str token then token else None))).
  assert (H01 : ran_ok w leads w1 leads)
    by (apply ran_ok_refl; [reflexivity | now exists 0%nat]).
  destruct (textsearch _ _ _) as [data|]; [|discriminate].
  destruct (negb (status_ok data)); [intros [= <-]; exact H01|].
  pose proof (fun ls0 => forPlaces_ret src niche0 city0 state0 today limit
                           (default [] (results data)) leads ls0 w1) as H1.
  cbn zeta in H1.
  destruct (forPlaces _ _ _ _ _ _ _ _ _) as [[leads'| |] w2]; cbn [fst snd] in *;
    [|discriminate|discriminate].
  specialize (H1 leads' eq_refl).
  destruct (_ && _ && _).
  - intros Hr. eapply ran_ok_trans; [exact H01|].
    eapply ran_ok_trans; [exact H1 | now apply IH].
  - intros [= <-]. exact (ran_ok_trans _ _ _ _ _ _ H01 H1).
Qed.

Lemma POST_scrape_success (fuel : nat) (src : Source) (apiKey : option string)
    (today : string) (req : ScrapeRequest) (w : World) (n : nat) (ls : list Lead) :
  let r := POST_scrape fuel src apiKey today req w in
  fst r = Ret (ScrapeJson n ls) ->
  n = length ls
  /\ store (snd r) = foldl add_lead (store w) ls
  /\ fresh_run (store w) ls
  /\ calls_passed w (snd r).
Proof.
  cbn zeta. unfold POST_scrape, try_catch.
  destruct (_ || _ || _); [discriminate|].
  destruct (negb (Js.truthy_str apiKey)); [discriminate|].
  unfold bind.
  match goal with
  | |- context [pageLoop ?f ?s ?n ?c ?st ?t ?l ?m ?tok ?a ?ls0 ?w0] =>
      pose proof (fun ls1 => pageLoop_ret s n c st t l m f tok a ls0 ls1 w0) as H1;
      cbn zeta in H1;
      destruct (pageLoop f s n c st t l m tok a ls0 w0) as [[leads| |] w1]
  end; cbn [fst snd] in *; [|discriminate|discriminate].
  intros [= <- <-]. destruct (H1 leads eq_refl) as (new & -> & Hs & Hf & Hc).
  auto.
Qed.

Lemma add_lead_run_facts (new : list Lead) :
  forall s, fresh_run s new ->
    let s' := foldl add_lead s new in
    NoDup (map id new)
    /\ (forall l, In l new ->
                  built l /\ kv s !! lead_key (id l) = None
                  /\ kv s' !! lead_key (id l) = Some l /\ In (id l) (ids s'))
    /\ (forall k, (forall l, In l new -> k <> lead_key (id l)) ->
                  kv s' !! k = kv s !! k)
    /\ (forall k v, kv s !! k = Some v -> kv s' !! k = Some v)
    /\ (forall i, In i (ids s) -> In i (ids s')).
Proof.
  induction new as [|l r IH]; intros s Hf; cbn zeta; cbn [foldl map].
  - repeat split; try apply NoDup_nil_2; try contradiction; auto.
  - destruct Hf as (Hb & Hn & Hr).
    destruct (IH (add_lead s l) Hr) as (Hnd & Hin & Hout & Hmono & Hids).
    cbn zeta in *.
    assert (Hl : kv (add_lead s l) !! lead_key (id l) = Some l)
      by (cbn; apply lookup_insert_eq).
    repeat split.
    + apply NoDup_cons. split; [|exact Hnd].
      intros Hi. apply list_elem_of_In, in_map_iff in Hi as (l' & Hid & Hl').
      destruct (Hin l' Hl') as (_ & Hfree & _). rewrite Hid in Hfree. congruence.
    + destruct H as [<-|H]; [assumption | now apply Hin].
    + destruct H as [<-|H]; [assumption|].
      destruct (Hin l0 H) as (_ & Hfree & _). cbn in Hfree.
      rewrite lookup_insert in Hfree. now case_decide.
    + destruct H as [<-|H]; [now apply Hmono | now apply Hin].
    + destruct H as [<-|H]; [|now apply Hin].
      apply Hids. cbn. apply sadd_In. now right.
    + intros k Hk. rewrite Hout by (intros l' Hl'; apply Hk; now right).
      cbn. apply lookup_insert_ne. intros E. apply (Hk l); [now left | now symmetry].
    + intros k v Hk. apply Hmono. cbn.
      rewrite lookup_insert_ne; [assumption | congruence].
    + intros i Hi. apply Hids. cbn. apply sadd_In. now left.
Qed.

(** X4: when the scrape answers success, [leads_found] is the number of
    leads returned, the leads returned have pairwise different ids, each
    of them qualified, was not stored before the run and is stored and
    listed after it, and no other key of the store has changed. *)
Theorem X4_success_reports_new_leads (fuel : nat) (src : Source)
    (apiKey : option string) (today : string) (req : ScrapeRequest) (w : World)
    (n : nat) (ls : list Lead) :
  let r := POST_scrape fuel src apiKey today req w in
  fst r = Ret (ScrapeJson n ls) ->
  n = length ls
  /\ NoDup (map id ls)
  /\ (forall l, In l ls ->
                built l /\ kv (store w) !! lead_key (id l) = None
                /\ kv (store (snd r)) !! lead_key (id l) = Some l
                /\ In (id l) (ids (store (snd r))))
  /\ (forall k, (forall l, In l ls -> k <> lead_key (id l)) ->
                kv (store (snd r)) !! k = kv (store w) !! k).
Proof.
  intros r Hr. subst r.
  destruct (POST_scrape_success fuel src apiKey today req w n ls Hr)
    as (Hn & Hs & Hf & _).
  rewrite Hs.
  destruct (add_lead_run_facts ls (store w) Hf) as (Hnd & Hin & Hout & _ & _).
  auto.
Qed.

Lemma X4_witness :
  1%nat = length [demo_lead]
  /\ NoDup (map id [demo_lead])
  /\ (forall l, In l [demo_lead] ->
                built l /\ kv (store world0) !! lead_key (id l) = None
                /\ kv (store (snd (POST_scrape 10 two_page_source (Some "key")
                                     "2026-01-05" (plumber_request None) world0)))
                     !! lead_key (id l) = Some l
                /\ In (id l)
                     (ids (store (snd (POST_scrape 10 two_page_source (Some "key")
                                         "2026-01-05" (plumber_request None) world0)))))
  /\ (forall k, (forall l, In l [demo_lead] -> k <> lead_key (id l)) ->
                kv (store (snd (POST_scrape 10 two_page_source (Some "key")
                                  "2026-01-05" (plumber_request None) world0))) !! k
                = kv (store world0) !! k).
Proof.
  apply (X4_success_reports_new_leads 10 two_page_source (Some "key") "2026-01-05"
           (plumber_request None) world0 1 [demo_lead]).
  reflexivity.
Defined.

Lemma omap_ext_in {A B} (f g : A -> option B) (l : list A) :
  (forall x, In x l -> f x = g x) -> omap f l = omap g l.
Proof.
  induction l as [|x l IH]; intros H; cbn; [reflexivity|].
  rewrite (H x) by now left. rewrite IH by (intros y Hy; apply H; now right).
  reflexivity.
Qed.

Lemma add_lead_run_listing (new : list Lead) :
  forall s, fresh_run s new ->
    (forall i, In i (ids s) -> is_Some (kv s !! lead_key i)) ->
    ids (foldl add_lead s new) = ids s ++ map id new
    /\ stored_leads (foldl add_lead s new) = stored_leads s ++ new.
Proof.
  induction new as [|l r IH]; intros s Hf Hl; cbn [foldl map].
  - now rewrite !app_nil_r.
  - destruct Hf as (Hb & Hn & Hr).
    assert (Hnot : ~ In (id l) (ids s)).
    { intros Hi. destruct (Hl _ Hi) as [v Hv]. congruence. }
    assert (Hids : ids (add_lead s l) = ids s ++ [id l]).
    { cbn. unfold sadd. rewrite bool_decide_eq_false_2; [reflexivity|].
      now rewrite list_elem_of_In. }
    assert (Hst : stored_leads (add_lead s l) = stored_leads s ++ [l]).
    { unfold stored_leads. rewrite Hids, omap_app. cbn [kv add_lead].
      f_equal.
      - apply omap_ext_in. intros i Hi. apply lookup_insert_ne.
        intros E. apply lead_key_inj in E. congruence.
      - cbn. now rewrite lookup_insert_eq. }
    destruct (IH (add_lead s l) Hr) as [E1 E2].
    { intros i Hi. rewrite Hids in Hi. apply in_app_iff in Hi as [Hi|[<-|[]]].
      - cbn. rewrite lookup_insert_ne; [now apply Hl|].
        intros E. apply lead_key_inj in E. congruence.
      - cbn. rewrite lookup_insert_eq. eauto. }
    rewrite E1, E2, Hids, Hst, <- !app_assoc. auto.
Qed.

(** X5: on a store whose listed ids all hold a lead, a scrape that
    answers success adds to the id set exactly the ids of the returned
    leads, and the leads the other handlers read become the former ones
    together with the returned ones; the order of enumeration is the
    store's own and nothing is said of it. *)
Theorem X5_success_adds_to_listing (fuel : nat) (src : Source)
    (apiKey : option string) (today : string) (req : ScrapeRequest) (w : World)
    (n : nat) (ls : list Lead) :
  let r := POST_scrape fuel src apiKey today req w in
  listing_ok (store w) ->
  fst r = Ret (ScrapeJson n ls) ->
  Permutation (ids (store (snd r))) (ids (store w) ++ map id ls)
  /\ Permutation (stored_leads (store (snd r))) (stored_leads (store w) ++ ls)
  /\ (forall l, In l ls -> ~ In (id l) (ids (store w))).
Proof.
  intros r [_ Hl] Hr. subst r.
  destruct (POST_scrape_success fuel src apiKey today req w n ls Hr)
    as (_ & Hs & Hf & _).
  rewrite Hs.
  destruct (add_lead_run_listing ls (store w) Hf Hl) as [-> ->].
  split; [reflexivity|]. split; [reflexivity|].
  intros l Hin Hi.
  destruct (add_lead_run_facts ls (store w) Hf) as (_ & Hnew & _).
  destruct (Hnew l Hin) as (_ & Hfree & _).
  destruct (Hl _ Hi) as [v Hv]. congruence.
Qed.

Lemma X5_witness :
  Permutation
    (ids (store (snd (POST_scrape 10 two_page_source (Some "key") "2026-01-05"
                        (plumber_request None) world0))))
    (ids (store world0) ++ map id [demo_lead])
  /\ Permutation
       (stored_leads (store (snd (POST_scrape 10 two_page_source (Some "key")
                                    "2026-01-05" (plumber_request None) world0))))
       (stored_leads (store world0) ++ [demo_lead])
  /\ (forall l, In l [demo_lead] -> ~ In (id l) (ids (store world0))).
Proof.
  apply (X5_success_adds_to_listing 10 two_page_source (Some "key") "2026-01-05"
           (plumber_request None) world0 1 [demo_lead]).
  - split; [apply NoDup_nil_2 | intros i []].
  - reflexivity.
Defined.

(** ** Refusals and failures of the scrape *)



(** X7: a scrape answers success only if none of its storage calls was
    rejected: the entries of the fault oracle used up by the run are all
    [false]. *)
Theorem X7_success_means_no_rejected_call (fuel : nat) (src : Source)
    (apiKey : option string) (today : string) (req : ScrapeRequest) (w : World)
    (n : nat) (ls : list Lead) :
  fst (POST_scrape fuel src apiKey today req w) = Ret (ScrapeJson n ls) ->
  exists k : nat,
    faults w = repeat false k
               ++ faults (snd (POST_scrape fuel src apiKey today req w)).
Proof.
  intros Hr. now destruct (POST_scrape_success fuel src apiKey today req w n ls Hr)
    as (_ & _ & _ & Hc).
Qed.

Lemma X7_witness :
  exists k : nat,
    faults faulty_world0
    = repeat false k
      ++ faults (snd (POST_scrape 10 two_page_source (Some "key") "2026-01-05"
                        (plumber_request None) faulty_world0)).
Proof.
  apply (X7_success_means_no_rejected_call 10 two_page_source (Some "key")
           "2026-01-05" (plumber_request None) faulty_world0 1 [demo_lead]).
  reflexivity.
Defined.

(** X8: when [kv.set] succeeds and [kv.sadd] is rejected, the insertion
    throws with the lead stored under its key but missing from the id set;
    from then on the lead is invisible to every handler that goes through
    the id set, and a later insertion of the same id is dropped as a
    duplicate, so the id set never gets it. *)
Theorem X8_rejected_sadd_orphans_lead (lead lead' : Lead) (leads leads' : list Lead)
    (w : World) (fs : list bool) :
  faults w = false :: false :: true :: fs ->
  kv (store w) !! lead_key (id lead) = None ->
  ~ In (id lead) (ids (store w)) ->
  id lead' = id lead ->
  let r := upsert lead leads w in
  fst r = Throw
  /\ kv (store (snd r)) !! lead_key (id lead) = Some lead
  /\ ids (store (snd r)) = ids (store w)
  /\ stored_leads (store (snd r)) = stored_leads (store w)
  /\ (forall w2, store w2 = store (snd r) ->
                 store (snd (upsert lead' leads' w2)) = store w2
                 /\ fst (upsert lead' leads' w2) <> Ret (leads' ++ [lead'])).
Proof.
  destruct w as [s f l]. cbn [store faults]. intros -> Hn Hnot Hid.
  set (r := upsert lead leads _).
  assert (Hr : r = (Throw,
                    {| store := {| kv := <[lead_key (id lead) := lead]> (kv s);
                                   ids := ids s |};
                       faults := fs; log := l |})).
  { subst r. unfold_kv. cbn. rewrite Hn. reflexivity. }
  rewrite Hr. cbn [fst snd store kv ids].
  split; [reflexivity|]. split; [apply lookup_insert_eq|]. split; [reflexivity|].
  split.
  - unfold stored_leads. cbn [kv ids]. apply omap_ext_in. intros i Hi.
    apply lookup_insert_ne. intros E. apply lead_key_inj in E. congruence.
  - intros w2 Hw2.
    assert (Hl : kv (store w2) !! lead_key (id lead') = Some lead)
      by (rewrite Hw2, Hid; cbn; apply lookup_insert_eq).
    destruct (upsert_present lead' lead leads' w2 Hl) as [Hs Ho].
    split; [exact Hs|].
    intros E. destruct Ho as [Ho|Ho]; rewrite Ho in E; [|discriminate].
    inversion E as [E']. apply (f_equal (@length Lead)) in E'.
    rewrite length_app in E'. cbn in E'. lia.
Qed.

Lemma X8_witness :
  let r := upsert demo_lead [] sadd_fault_world in
  fst r = Throw
  /\ kv (store (snd r)) !! lead_key (id demo_lead) = Some demo_lead
  /\ ids (store (snd r)) = ids (store sadd_fault_world)
  /\ stored_leads (store (snd r)) = stored_leads (store sadd_fault_world)
  /\ (forall w2, store w2 = store (snd r) ->
                 store (snd (upsert demo_lead [] w2)) = store w2
                 /\ fst (upsert demo_lead [] w2) <> Ret ([] ++ [demo_lead])).
Proof.
  apply (X8_rejected_sadd_orphans_lead demo_lead demo_lead [] [] sadd_fault_world []).
  - reflexivity.
  - vm_compute. reflexivity.
  - intros [].
  - reflexivity.
Defined.

(** ** More on the scorer *)

Lemma review_term_antitone (n1 n2 : Z) :
  0 <= n1 <= n2 -> review_term n2 <= review_term n1.
Proof.
  intros H. unfold review_term.
  repeat match goal with
         | |- context [?a =? ?b] => destruct (Z.eqb_spec a b)
         | |- context [?a <=? ?b] => destruct (Z.leb_spec a b)
         end; lia.
Qed.

(** X9: with everything else equal, a candidate with more reviews never
    scores higher, and a candidate with a website scores exactly 3 less
    than the same candidate without one. *)
Theorem X9_score_monotone (place : PlaceObj) (niche0 : string) :
  (forall n1 n2, 0 <= n1 <= n2 ->
                 calculateLeadScore (with_reviews place n2) niche0
                 <= calculateLeadScore (with_reviews place n1) niche0)
  /\ (forall site, Js.truthy_str site = true ->
                   calculateLeadScore (with_website place site) niche0
                   = calculateLeadScore (with_website place None) niche0 - 3).
Proof.
  split.
  - intros n1 n2 H. unfold calculateLeadScore. cbn [user_ratings_total rating website with_reviews].
    pose proof (term_ranges 0 (Js.q_or (rating place) 0) (website place) niche0)
      as (_ & Hb & Hc & Hd).
    assert (Hn : forall n, 0 <= n -> Js.num_or (Some n) 0 = n)
      by (intros n _; cbn; destruct (Z.eqb_spec n 0); lia).
    rewrite !Hn by lia.
    pose proof (review_term_antitone n1 n2 H).
    pose proof (term_ranges n1 0 None niche0) as (Ha1 & _).
    pose proof (term_ranges n2 0 None niche0) as (Ha2 & _).
    lia.
  - intros site Hs. unfold calculateLeadScore.
    cbn [user_ratings_total rating website with_website].
    pose proof (term_ranges (Js.num_or (user_ratings_total place) 0)
                  (Js.q_or (rating place) 0) None niche0) as (Ha & Hb & _ & Hd).
    unfold website_term. rewrite Hs. cbn [negb Js.truthy_str]. lia.
Qed.

Lemma X9_witness :
  calculateLeadScore (with_reviews plumber_place 40) "plumbers"
  <= calculateLeadScore (with_reviews plumber_place 5) "plumbers"
  /\ calculateLeadScore (with_website plumber_place (Some "http://x.com")) "plumbers"
     = calculateLeadScore (with_website plumber_place None) "plumbers" - 3.
Proof.
  split.
  - apply X9_score_monotone. lia.
  - apply X9_score_monotone. reflexivity.
Defined.

Lemma toLowerCase_app (a b : string) :
  Js.toLowerCase (a +:+ b) = Js.toLowerCase a +:+ Js.toLowerCase b.
Proof.
  induction a as [|x a IH]; [reflexivity|].
  change (String (Js.lower_ascii x) (Js.toLowerCase (a +:+ b))
          = String (Js.lower_ascii x) (Js.toLowerCase a +:+ Js.toLowerCase b)).
  now rewrite IH.
Qed.

Lemma string_app_empty (s : string) : s +:+ EmptyString = s.
Proof.
  induction s as [|c s IH]; [reflexivity|].
  change (String c (s +:+ EmptyString) = String c s). now rewrite IH.
Qed.

(** X10: the niche bonus is blind to letter case and to surrounding text:
    a niche that contains, in any mix of upper and lower case, one of the
    high-value niches scores like that high-value niche itself. *)
Theorem X10_niche_bonus_any_case (place : PlaceObj) (pre m post n : string) :
  In n highValueNiches ->
  Js.toLowerCase m = n ->
  calculateLeadScore place (pre +:+ m +:+ post) = calculateLeadScore place n
  /\ niche_term (pre +:+ m +:+ post) = 7.
Proof.
  intros Hin Hm.
  assert (H7 : forall s, is_substring n (Js.toLowerCase s) -> niche_term s = 7).
  { intros s Hs. unfold niche_term, Js.some.
    assert (E : existsb (fun n0 => Js.includes (Js.toLowerCase s) n0) highValueNiches
                = true).
    { apply existsb_exists. exists n. split; [exact Hin | now apply includes_iff]. }
    now rewrite E. }
  assert (Hlong : niche_term (pre +:+ m +:+ post) = 7).
  { apply H7. rewrite !toLowerCase_app, Hm.
    now exists (Js.toLowerCase pre), (Js.toLowerCase post). }
  assert (Hshort : niche_term n = 7).
  { apply H7. rewrite (toLowerCase_fixed n Hin).
    exists EmptyString, EmptyString.
    change (n = n +:+ EmptyString). now rewrite string_app_empty. }
  split; [|exact Hlong].
  unfold calculateLeadScore. now rewrite Hlong, Hshort.
Qed.

Lemma X10_witness :
  calculateLeadScore plumber_place ("24h " +:+ "HVAC" +:+ " repair")
  = calculateLeadScore plumber_place "hvac"
  /\ niche_term ("24h " +:+ "HVAC" +:+ " repair") = 7.
Proof.
  apply X10_niche_bonus_any_case.
  - cbn. auto.
  - reflexivity.
Defined.

Lemma num_or_idem (v : option Z) :
  Js.num_or (Some (Js.num_or v 0)) 0 = Js.num_or v 0.
Proof.
  unfold Js.num_or. destruct v as [n|]; [|reflexivity].
  destruct (Z.eqb_spec n 0) as [->|Hne]; [reflexivity|].
  destruct (Z.eqb_spec n 0); [lia|reflexivity].
Qed.

Lemma q_or_idem (v : option Q) :
  Js.q_or (Some (Js.q_or v 0)) 0 = Js.q_or v 0.
Proof.
  unfold Js.q_or. destruct v as [q|]; [|reflexivity].
  destruct (Qeq_bool q 0) eqn:E; [reflexivity | now rewrite E].
Qed.

(** X11: the score stored with a lead is the score of the lead's own
    stored fields, provided that in the details answer [user_ratings_total]
    and [rating] are each either absent or a number other than 0, and that
    a website absent from the details is absent from the search result
    too.  A property that is present and falsy breaks it: 0, and equally a
    JSON [null], which [||], [!] and the spread treat exactly as they
    treat 0 and which therefore stands as [Some 0] here. *)
Theorem X11_stored_score_reproducible (place details : PlaceObj)
    (niche0 city0 state0 today : string) :
  qualifies details = true ->
  (website details = None -> Js.truthy_str (website place) = false) ->
  user_ratings_total details <> Some 0 ->
  (forall q, rating details = Some q -> Qeq_bool q 0 = false) ->
  let lead := buildLead place details niche0 city0 state0 today in
  lead_score lead = calculateLeadScore (lead_as_place lead) (niche lead).
Proof.
  intros Hq Hw Hn Hr. cbn zeta.
  cbn [lead_score niche buildLead]. unfold calculateLeadScore.
  cbn [user_ratings_total rating website lead_as_place spread
       review_count lead_rating lead_website buildLead].
  assert (E1 : Js.num_or (over (user_ratings_total place) (user_ratings_total details)) 0
               = Js.num_or
                   (Some (Js.num_or (Js.or_num (user_ratings_total details)
                                       (user_ratings_total place)) 0)) 0).
  { rewrite num_or_idem. unfold Js.num_or, Js.or_num, over.
    destruct (user_ratings_total details) as [n|]; [|reflexivity].
    destruct (Z.eqb_spec n 0) as [->|Hne]; [congruence|].
    destruct (Z.eqb_spec n 0); [lia|reflexivity]. }
  assert (E2 : Js.q_or (over (rating place) (rating details)) 0
               = Js.q_or (Some (Js.q_or (Js.or_q (rating details) (rating place)) 0)) 0).
  { rewrite q_or_idem. unfold Js.q_or, Js.or_q, over.
    destruct (rating details) as [q|]; [|reflexivity].
    rewrite (Hr q eq_refl). now rewrite (Hr q eq_refl). }
  assert (E3 : website_term (over (website place) (website details))
               = website_term (Some EmptyString)).
  { apply qualifies_iff in Hq as [Hs _]. unfold website_term.
    destruct (website details) as [s|]; cbn [over].
    - now rewrite Hs.
    - now rewrite (Hw eq_refl). }
  now rewrite E1, E2, E3.
Qed.

Lemma X11_witness :
  lead_score demo_lead = calculateLeadScore (lead_as_place demo_lead) (niche demo_lead).
Proof.
  apply (X11_stored_score_reproducible plumber_place plumber_details
           "plumbers" "Houston" "TX" "2026-01-05").
  - reflexivity.
  - discriminate.
  - discriminate.
  - intros q [= <-]. reflexivity.
Defined.

(** Without the proviso the two scores part.  A details answer reporting
    0 reviews scores the candidate as brand new, while the stored review
    count falls back to the 5 of the search result. *)
Example stored_score_not_reproducible :
  let lead := buildLead plumber_place zero_reviews_details
                "plumbers" "Houston" "TX" "2026-01-05" in
  review_count lead = 5 /\ lead_score lead = 29
  /\ calculateLeadScore (lead_as_place lead) (niche lead) = 27.
Proof. repeat split. Qed.

(** A details answer with [rating: null, user_ratings_total: null]: the
    spread lets the two nulls win, so the score is that of no reviews and
    no rating, 20, while the stored rating and review count fall back to
    the 3.2 and 5 of the search result, which score 27. *)
Example stored_score_null_details :
  let lead := buildLead plumber_place null_numbers_details
                "plumbers" "Houston" "TX" "2026-01-05" in
  review_count lead = 5 /\ Qeq (lead_rating lead) (16 # 5)
  /\ lead_score lead = 20
  /\ calculateLeadScore (lead_as_place lead) (niche lead) = 27.
Proof. repeat split. Qed.

(** ** The counts of [GET /api/stats] *)

Lemma statsLoop_nofault (today : string) (s : Store) (l : list Request)
    (leadIds : list string) :
  forall c : Counts,
    statsLoop today leadIds c {| store := s; faults := []; log := l |}
    = (Ret (fold_left (fun c0 lead => count_lead today lead c0)
              (omap (fun i => kv s !! lead_key i) leadIds) c),
       {| store := s; faults := []; log := l |}).
Proof.
  induction leadIds as [|i rest IH]; intros c; cbn [statsLoop omap list_omap].
  - reflexivity.
  - unfold bind, kv_get, kv_call. cbn [store faults log].
    destruct (kv s !! lead_key i) as [lead|]; rewrite IH; reflexivity.
Qed.

Lemma fold_count_lead (today : string) (L : list Lead) :
  forall c : Counts,
    let c' := fold_left (fun c0 lead => count_lead today lead c0) L c in
    total c' = total c + Z.of_nat (length L)
    /\ hot c' = hot c + count_where is_hot L
    /\ warm c' = warm c + count_where is_warm L
    /\ newToday c' = newToday c + count_where (added_on today) L.
Proof.
  unfold count_where.
  induction L as [|lead L IH]; intros c; cbn zeta; cbn [fold_left List.filter length].
  - cbn. lia.
  - destruct (IH (count_lead today lead c)) as (Ht & Hh & Hw & Hn).
    cbn zeta in *. rewrite Ht, Hh, Hw, Hn. clear.
    unfold count_lead, is_hot, is_warm, added_on. cbn [total hot warm newToday].
    destruct (Z.leb_spec 18 (lead_score lead)); destruct (Z.leb_spec 12 (lead_score lead));
      destruct (Z.ltb_spec (lead_score lead) 18);
      destruct (String.eqb (date_added lead) today);
      cbn [andb length]; lia.
Qed.

Lemma GET_stats_nofault (today : string) (w : World) :
  faults w = [] ->
  GET_stats today w
  = (Ret (stats_json
            (fold_left (fun c0 lead => count_lead today lead c0)
               (stored_leads (store w)) zero_counts)), w).
Proof.
  destruct w as [s f l]. cbn [faults store]. intros ->.
  unfold GET_stats, try_catch, stats_body, bind, kv_smembers, kv_call, ret.
  cbn [store faults log]. unfold stored_leads.
  destruct (ids s) as [|i rest] eqn:E; [reflexivity|].
  now rewrite statsLoop_nofault.
Qed.

(** X12: with a healthy storage the stats are the counts over the stored
    leads that the id set lists: their number, those of score 18 or more,
    those of score 12 to 17, and those added on the present day. *)
Theorem X12_stats_are_the_counts (today : string) (w : World) :
  faults w = [] ->
  let L := stored_leads (store w) in
  GET_stats today w
  = (Ret (StatsJson (Z.of_nat (length L)) (count_where is_hot L)
            (count_where is_warm L) (count_where (added_on today) L)), w).
Proof.
  intros Hf. cbn zeta. rewrite (GET_stats_nofault today w Hf).
  destruct (fold_count_lead today (stored_leads (store w)) zero_counts)
    as (Ht & Hh & Hw & Hn).
  cbn zeta in *. unfold stats_json. rewrite Ht, Hh, Hw, Hn.
  reflexivity.
Qed.

Lemma X12_witness :
  GET_stats "2026-01-05" tie_world
  = (Ret (StatsJson (Z.of_nat (length (stored_leads (store tie_world))))
            (count_where is_hot (stored_leads (store tie_world)))
            (count_where is_warm (stored_leads (store tie_world)))
            (count_where (added_on "2026-01-05") (stored_leads (store tie_world)))),
     tie_world).
Proof.
  apply (X12_stats_are_the_counts "2026-01-05" tie_world). reflexivity.
Defined.

Lemma statsLoop_bounds (today : string) (leadIds : list string) :
  forall (c c' : Counts) (w : World) (b : Z),
    (0 <= hot c /\ 0 <= warm c /\ 0 <= newToday c
     /\ hot c + warm c <= total c /\ newToday c <= total c /\ total c <= b) ->
    fst (statsLoop today leadIds c w) = Ret c' ->
    0 <= hot c' /\ 0 <= warm c' /\ 0 <= newToday c'
    /\ hot c' + warm c' <= total c' /\ newToday c' <= total c'
    /\ total c' <= b + Z.of_nat (length leadIds).
Proof.
  induction leadIds as [|i rest IH]; intros c c' [s f l] b Hc; cbn [statsLoop].
  - unfold ret. cbn. intros [= <-]. lia.
  - unfold bind, kv_get, kv_call. cbn [store faults log].
    assert (Hstep : forall lead,
               let c1 := count_lead today lead c in
               0 <= hot c1 /\ 0 <= warm c1 /\ 0 <= newToday c1
               /\ hot c1 + warm c1 <= total c1 /\ newToday c1 <= total c1
               /\ total c1 <= b + 1).
    { intros lead. unfold count_lead. cbn.
      destruct (18 <=? lead_score lead); destruct (12 <=? lead_score lead);
        destruct (String.eqb (date_added lead) today); lia. }
    destruct f as [|[] f]; cbn [fst snd]; [|discriminate|];
      (destruct (kv s !! lead_key i) as [lead|]; intros Hr;
       [ apply (IH _ _ _ (b + 1)) in Hr; [cbn [length]; lia | apply Hstep]
       | apply (IH _ _ _ b) in Hr; [cbn [length]; lia | exact Hc] ]).
Qed.

(** X13: whatever the store holds and whichever storage calls fail, the
    counts of a stats answer are consistent: none is negative, hot and
    warm together do not exceed the total, nor does the number added
    today, and the total is at most the size of the id set. *)
Theorem X13_stats_counts_consistent (today : string) (w : World) (t h m n : Z) :
  fst (GET_stats today w) = Ret (StatsJson t h m n) ->
  0 <= h /\ 0 <= m /\ 0 <= n /\ h + m <= t /\ n <= t
  /\ t <= Z.of_nat (length (ids (store w))).
Proof.
  destruct w as [s f l].
  unfold GET_stats, try_catch, stats_body, bind, kv_smembers, kv_call, ret.
  cbn [store faults log].
  assert (Hloop : forall f',
             fst (match
                     (match statsLoop today (ids s) zero_counts
                              {| store := s; faults := f'; log := l |} with
                      | (Ret c, w') => (Ret (stats_json c), w')
                      | (Throw, w') => (@Throw Response, w')
                      | (Diverge, w') => (Diverge, w')
                      end) with
                   | (Throw, w') => (Ret (StatsJson 0 0 0 0), w')
                   | r => r
                   end) = Ret (StatsJson t h m n) ->
             0 <= h /\ 0 <= m /\ 0 <= n /\ h + m <= t /\ n <= t
             /\ t <= Z.of_nat (length (ids s))).
  { intros f'.
    pose proof (fun c' => statsLoop_bounds today (ids s) zero_counts c'
                            {| store := s; faults := f'; log := l |} 0) as Hb.
    destruct (statsLoop _ _ _ _) as [[c| |] w']; cbn [fst] in *.
    - unfold stats_json. intros [= <- <- <- <-].
      apply Hb; [cbn; lia | reflexivity].
    - intros [= <- <- <- <-]. lia.
    - discriminate. }
  destruct f as [|[] f]; cbn [fst snd store faults].
  - destruct (ids s) as [|i rest] eqn:E.
    + cbn. intros [= <- <- <- <-]. lia.
    + apply Hloop.
  - cbn. intros [= <- <- <- <-]. lia.
  - destruct (ids s) as [|i rest] eqn:E.
    + cbn. intros [= <- <- <- <-]. lia.
    + apply Hloop.
Qed.

Lemma X13_witness :
  0 <= 2 /\ 0 <= 0 /\ 0 <= 2 /\ 2 + 0 <= 2 /\ 2 <= 2
  /\ 2 <= Z.of_nat (length (ids (store tie_world))).
Proof.
  apply (X13_stats_counts_consistent "2026-01-05" tie_world 2 2 0 2). reflexivity.
Defined.

(** ** [GET /api/leads] *)

Lemma leadsLoop_nofault (filter0 : string) (s : Store) (l : list Request)
    (leadIds : list string) :
  forall acc : list Lead,
    leadsLoop filter0 leadIds acc {| store := s; faults := []; log := l |}
    = (Ret (acc ++ List.filter (passes filter0)
                     (omap (fun i => kv s !! lead_key i) leadIds)),
       {| store := s; faults := []; log := l |}).
Proof.
  induction leadIds as [|i rest IH]; intros acc; cbn [leadsLoop omap list_omap].
  - unfold ret. cbn. now rewrite app_nil_r.
  - unfold bind, kv_get, kv_call. cbn [store faults log].
    destruct (kv s !! lead_key i) as [lead|]; [|apply IH].
    cbn [List.filter]. destruct (passes filter0 lead); rewrite IH; [|reflexivity].
    now rewrite <- app_assoc.
Qed.

Lemma GET_leads_nofault (filterParam : option string) (w : World) :
  faults w = [] ->
  GET_leads filterParam w
  = (Ret (LeadsJson
            (sort_by_score
               (List.filter (passes (Js.or_str_default filterParam "all"))
                  (stored_leads (store w))))), w).
Proof.
  destruct w as [s f l]. cbn [faults store]. intros ->.
  unfold GET_leads, try_catch, bind, kv_smembers, kv_call, ret.
  cbn [store faults log]. unfold stored_leads.
  destruct (ids s) as [|i rest] eqn:E; [reflexivity|].
  now rewrite leadsLoop_nofault.
Qed.

Lemma leadsLoop_store (filter0 : string) (leadIds : list string) :
  forall (acc : list Lead) (w : World),
    store (snd (leadsLoop filter0 leadIds acc w)) = store w
    /\ fst (leadsLoop filter0 leadIds acc w) <> Diverge.
Proof.
  induction leadIds as [|k rest IH]; intros acc [s f l]; cbn [leadsLoop].
  - unfold ret. cbn. split; [reflexivity|discriminate].
  - unfold bind, kv_get, kv_call. cbn [store faults log].
    destruct f as [|[] f]; cbn [fst snd store];
      [| split; [reflexivity|discriminate] |];
      (destruct (kv s !! lead_key k) as [lead|];
       [destruct (passes filter0 lead)|]); apply IH.
Qed.

Lemma leadsLoop_fault (filter0 : string) (leadIds : list string) :
  forall (acc : list Lead) (w : World) (i : nat),
    (i < length leadIds)%nat ->
    faults w !! i = Some true ->
    fst (leadsLoop filter0 leadIds acc w) = Throw.
Proof.
  induction leadIds as [|k rest IH]; intros acc [s f l] i Hi Hf; cbn in Hi; [lia|].
  cbn [leadsLoop]. unfold bind, kv_get, kv_call. cbn [store faults log] in *.
  destruct f as [|b f]; [discriminate|].
  destruct b; [reflexivity|].
  destruct i as [|j]; [discriminate|]. cbn in Hf.
  (destruct (kv s !! lead_key k) as [lead|];
   [destruct (passes filter0 lead)|]);
    apply (IH _ _ j); cbn; solve [lia | assumption].
Qed.

Lemma passes_bands (lead : Lead) :
  passes "hot" lead = (18 <=? lead_score lead)
  /\ passes "warm" lead = ((12 <=? lead_score lead) && (lead_score lead <? 18))
  /\ passes "medium" lead = ((7 <=? lead_score lead) && (lead_score lead <? 12)).
Proof.
  unfold passes. cbn [String.eqb Ascii.eqb Bool.eqb andb].
  repeat split;
    repeat match goal with
           | |- context [?a <? ?b] => destruct (Z.ltb_spec a b)
           | |- context [?a <=? ?b] => destruct (Z.leb_spec a b)
           end; cbn [andb orb]; try reflexivity; lia.
Qed.

(** X14: with a healthy storage the leads handler returns the listed
    leads that pass the filter, each as often as it is listed, sorted by
    score descending with ties in the order of the id set; [hot] selects
    the scores of 18 or more, [warm] 12 to 17, [medium] 7 to 11. *)
Theorem X14_leads_filtered_and_sorted (filterParam : option string) (w : World) :
  faults w = [] ->
  exists ls,
    GET_leads filterParam w = (Ret (LeadsJson ls), w)
    /\ score_sorted ls
    /\ Permutation
         (List.filter (passes (Js.or_str_default filterParam "all"))
            (stored_leads (store w))) ls
    /\ (forall s, with_score s ls
                  = with_score s
                      (List.filter (passes (Js.or_str_default filterParam "all"))
                         (stored_leads (store w))))
    /\ (forall l, In l ls ->
                  In l (stored_leads (store w))
                  /\ (filterParam = Some "hot" -> 18 <= lead_score l)
                  /\ (filterParam = Some "warm" -> 12 <= lead_score l < 18)
                  /\ (filterParam = Some "medium" -> 7 <= lead_score l < 12)).
Proof.
  intros Hf. eexists. split; [now apply GET_leads_nofault|].
  split; [apply sort_by_score_sorted|].
  split; [apply sort_by_score_perm|].
  split; [intros s; apply sort_by_score_stable|].
  intros l Hl.
  eapply Permutation_in in Hl; [|symmetry; apply sort_by_score_perm].
  apply filter_In in Hl as [Hin Hp]. split; [exact Hin|].
  destruct (passes_bands l) as (Hh & Hw & Hm).
  (split; [|split]); intros ->; cbn [Js.or_str_default String.eqb] in Hp;
    rewrite ?Hh, ?Hw, ?Hm in Hp;
    first [ apply andb_true_iff in Hp as [H1 H2];
            apply Z.leb_le in H1; apply Z.ltb_lt in H2; lia
          | apply Z.leb_le in Hp; lia ].
Qed.

Lemma X14_witness :
  exists ls,
    GET_leads (Some "hot") tie_world = (Ret (LeadsJson ls), tie_world)
    /\ score_sorted ls
    /\ Permutation
         (List.filter (passes (Js.or_str_default (Some "hot") "all"))
            (stored_leads (store tie_world))) ls
    /\ (forall s, with_score s ls
                  = with_score s
                      (List.filter (passes (Js.or_str_default (Some "hot") "all"))
                         (stored_leads (store tie_world))))
    /\ (forall l, In l ls ->
                  In l (stored_leads (store tie_world))
                  /\ (Some "hot" = Some "hot" -> 18 <= lead_score l)
                  /\ (Some "hot" = Some "warm" -> 12 <= lead_score l < 18)
                  /\ (Some "hot" = Some "medium" -> 7 <= lead_score l < 12)).
Proof.
  apply (X14_leads_filtered_and_sorted (Some "hot") tie_world). reflexivity.
Defined.

Lemma passes_other (filter0 : string) (lead : Lead) :
  filter0 <> "hot" -> filter0 <> "warm" -> filter0 <> "medium" ->
  passes filter0 lead = true.
Proof.
  intros Hh Hw Hm. unfold passes.
  apply String.eqb_neq in Hh, Hw, Hm. now rewrite Hh, Hw, Hm.
Qed.

Lemma leadsLoop_ext (f1 f2 : string) (leadIds : list string) :
  (forall lead, passes f1 lead = passes f2 lead) ->
  forall (acc : list Lead) (w : World),
    leadsLoop f1 leadIds acc w = leadsLoop f2 leadIds acc w.
Proof.
  intros Hp. induction leadIds as [|i rest IH]; intros acc w; cbn [leadsLoop];
    [reflexivity|].
  unfold bind. destruct (kv_get (lead_key i) w) as [[[lead|]| |] w1]; try reflexivity.
  - rewrite Hp. destruct (passes f2 lead); apply IH.
  - apply IH.
Qed.

(** X15: a filter value other than hot, warm and medium (a misspelling,
    another letter case, the empty string) is no filter at all: the
    handler answers as it does without the parameter. *)
Theorem X15_unknown_filter_is_all (filter0 : string) (w : World) :
  filter0 <> "hot" -> filter0 <> "warm" -> filter0 <> "medium" ->
  GET_leads (Some filter0) w = GET_leads None w.
Proof.
  intros Hh Hw Hm. unfold GET_leads, try_catch, bind.
  destruct (kv_smembers w) as [[[|i rest]| |] w1]; try reflexivity.
  rewrite (leadsLoop_ext (Js.or_str_default (Some filter0) "all")
             (Js.or_str_default None "all")); [reflexivity|].
  intros lead. rewrite (passes_other "all") by discriminate.
  cbn [Js.or_str_default]. destruct (String.eqb filter0 "");
    [now apply passes_other | now apply passes_other].
Qed.

Lemma X15_witness :
  GET_leads (Some "HOT") tie_world = GET_leads None tie_world.
Proof.
  apply X15_unknown_filter_is_all; discriminate.
Defined.

Lemma filter_ext_length (p q : Lead -> bool) (L : list Lead) :
  (forall l, p l = q l) -> length (List.filter p L) = length (List.filter q L).
Proof.
  intros H. induction L as [|l L IH]; cbn; [reflexivity|].
  rewrite H. destruct (q l); cbn; now rewrite IH.
Qed.

Lemma filter_all (L : list Lead) : List.filter (passes "all") L = L.
Proof.
  induction L as [|l L IH]; [reflexivity|].
  cbn [List.filter]. rewrite (passes_other "all") by discriminate. now rewrite IH.
Qed.

(** X16: with a healthy storage the stats agree with the leads handler:
    [total] is the number of leads it returns without a filter, [hot] the
    number under the filter hot, [warm] the number under the filter
    warm. *)
Theorem X16_stats_agree_with_leads (today : string) (w : World) :
  faults w = [] ->
  exists t h m n all hots warms,
    GET_stats today w = (Ret (StatsJson t h m n), w)
    /\ GET_leads None w = (Ret (LeadsJson all), w)
    /\ GET_leads (Some "hot") w = (Ret (LeadsJson hots), w)
    /\ GET_leads (Some "warm") w = (Ret (LeadsJson warms), w)
    /\ t = Z.of_nat (length all)
    /\ h = Z.of_nat (length hots)
    /\ m = Z.of_nat (length warms).
Proof.
  intros Hf.
  destruct (fold_count_lead today (stored_leads (store w)) zero_counts)
    as (Ht & Hh & Hw & _).
  cbn zeta in Ht, Hh, Hw. cbn [total hot warm zero_counts] in Ht, Hh, Hw.
  rewrite Z.add_0_l in Ht, Hh, Hw.
  do 7 eexists.
  split; [rewrite (GET_stats_nofault today w Hf); unfold stats_json; reflexivity|].
  split; [now apply GET_leads_nofault|].
  split; [now apply GET_leads_nofault|].
  split; [now apply GET_leads_nofault|].
  rewrite Ht, Hh, Hw.
  set (L := stored_leads (store w)).
  split; [|split].
  - rewrite <- (Permutation_length (sort_by_score_perm _)).
    change (Js.or_str_default None "all") with "all". now rewrite filter_all.
  - rewrite <- (Permutation_length (sort_by_score_perm _)).
    unfold count_where. f_equal. apply filter_ext_length.
    intros l. unfold is_hot. change (Js.or_str_default (Some "hot") "all") with "hot".
    now destruct (passes_bands l) as (-> & _).
  - rewrite <- (Permutation_length (sort_by_score_perm _)).
    unfold count_where. f_equal. apply filter_ext_length.
    intros l. unfold is_warm. change (Js.or_str_default (Some "warm") "all") with "warm".
    now destruct (passes_bands l) as (_ & -> & _).
Qed.

Lemma X16_witness :
  exists t h m n all hots warms,
    GET_stats "2026-01-05" tie_world = (Ret (StatsJson t h m n), tie_world)
    /\ GET_leads None tie_world = (Ret (LeadsJson all), tie_world)
    /\ GET_leads (Some "hot") tie_world = (Ret (LeadsJson hots), tie_world)
    /\ GET_leads (Some "warm") tie_world = (Ret (LeadsJson warms), tie_world)
    /\ t = Z.of_nat (length all)
    /\ h = Z.of_nat (length hots)
    /\ m = Z.of_nat (length warms).
Proof.
  apply (X16_stats_agree_with_leads "2026-01-05" tie_world). reflexivity.
Defined.

(** X17: the badge of the dashboard and the filters of the leads handler
    agree on hot and warm: a lead passes the filter hot exactly when its
    badge is HOT, and the filter warm exactly when its badge is WARM.  The
    badge MED is wider than the filter medium: every lead that passes
    medium is badged MED, and so is a lead of score below 7, which passes
    none of the three filters. *)
Theorem X17_badges_and_filters (lead : Lead) :
  (passes "hot" lead = true <-> getTier (lead_score lead) = "HOT")
  /\ (passes "warm" lead = true <-> getTier (lead_score lead) = "WARM")
  /\ (passes "medium" lead = true -> getTier (lead_score lead) = "MED")
  /\ (lead_score lead < 7 ->
      getTier (lead_score lead) = "MED"
      /\ passes "hot" lead = false /\ passes "warm" lead = false
      /\ passes "medium" lead = false).
Proof.
  destruct (passes_bands lead) as (Hh & Hw & Hm). rewrite Hh, Hw, Hm.
  unfold getTier.
  destruct (Z.leb_spec 18 (lead_score lead));
    destruct (Z.leb_spec 12 (lead_score lead));
    destruct (Z.leb_spec 7 (lead_score lead));
    destruct (Z.ltb_spec (lead_score lead) 18);
    destruct (Z.ltb_spec (lead_score lead) 12);
    cbn [andb]; try lia;
    (split; [split; [try reflexivity; discriminate | try reflexivity; discriminate]|]);
    (split; [split; [try reflexivity; discriminate | try reflexivity; discriminate]|]);
    (split; [try reflexivity; discriminate|]);
    intros; try lia; repeat split.
Qed.

Lemma X17_witness :
  (passes "hot" demo_lead = true <-> getTier (lead_score demo_lead) = "HOT")
  /\ (passes "warm" demo_lead = true <-> getTier (lead_score demo_lead) = "WARM")
  /\ getTier 5 = "MED".
Proof.
  destruct (X17_badges_and_filters demo_lead) as (Hh & Hw & _).
  split; [exact Hh|]. split; [exact Hw|].
  apply (X17_badges_and_filters
           {| id := "x"; lead_name := "x"; phone := "1"; niche := "n"; city := "c";
              state := "s"; address := "a"; lead_rating := 0; review_count := 60;
              gmb_link := "g"; lead_website := EmptyString; lead_score := 5;
              date_added := "2026-01-05" |}).
  cbn. lia.
Defined.

(** X18: with a healthy storage the rows of the CSV export are the leads
    that the leads handler returns without a filter, in the same order. *)
Theorem X18_export_rows_are_the_leads (w : World) :
  faults w = [] ->
  exists ls,
    GET_leads None w = (Ret (LeadsJson ls), w)
    /\ GET_export w = (Ret (CsvBody (csv_of ls)), w).
Proof.
  intros Hf. eexists. split; [now apply GET_leads_nofault|].
  rewrite GET_export_nofault by assumption.
  change (Js.or_str_default None "all") with "all". now rewrite filter_all.
Qed.

Lemma X18_witness :
  exists ls,
    GET_leads None tie_world = (Ret (LeadsJson ls), tie_world)
    /\ GET_export tie_world = (Ret (CsvBody (csv_of ls)), tie_world).
Proof.
  apply (X18_export_rows_are_the_leads tie_world). reflexivity.
Defined.

(** X19: the leads handler never changes the store and always answers;
    an empty id set gives the empty list, and a storage call rejected
    while it reads gives the error 500, where the stats handler gives
    zeros. *)
Theorem X19_leads_failure_is_reported (filterParam : option string) (w : World) :
  let r := GET_leads filterParam w in
  store (snd r) = store w
  /\ ((exists ls, fst r = Ret (LeadsJson ls))
      \/ fst r = Ret (LeadsError 500 "Failed to fetch leads"))
  /\ (forall i, (i <= length (ids (store w)))%nat -> faults w !! i = Some true ->
                fst r = Ret (LeadsError 500 "Failed to fetch leads"))
  /\ (ids (store w) = [] -> faults w !! 0%nat <> Some true ->
      fst r = Ret (LeadsJson [])).
Proof.
  destruct w as [s f l]. cbn zeta.
  unfold GET_leads, try_catch, bind, kv_smembers, kv_call, ret.
  cbn [store faults log].
  assert (Hloop : forall f',
             let r0 := leadsLoop (Js.or_str_default filterParam "all") (ids s) []
                         {| store := s; faults := f'; log := l |} in
             store (snd r0) = s
             /\ ((exists ls, fst r0 = Ret ls) \/ fst r0 = Throw)).
  { intros f'. cbn zeta.
    destruct (leadsLoop_store (Js.or_str_default filterParam "all") (ids s) []
                {| store := s; faults := f'; log := l |}) as [Hs Hd].
    split; [exact Hs|].
    destruct (leadsLoop _ _ _ _) as [[ls| |] w']; cbn in *; eauto. now elim Hd. }
  destruct f as [|[] f]; cbn [fst snd store faults].
  - destruct (ids s) as [|k rest] eqn:E.
    + cbn. repeat split; eauto; try discriminate.
    + destruct (Hloop []) as [Hs Ho]. cbn zeta in *.
      destruct (leadsLoop _ _ _ _) as [[ls| |] w']; cbn [fst snd] in *.
      * repeat split; eauto; try discriminate.
      * repeat split; eauto; discriminate.
      * destruct Ho as [[? ?]|?]; discriminate.
  - cbn. repeat split; eauto. intros _ H. now elim H.
  - destruct (ids s) as [|k rest] eqn:E.
    + cbn. repeat split; eauto.
      intros i Hi Hf. destruct i as [|j]; [discriminate|]. lia.
    + destruct (Hloop f) as [Hs Ho]. cbn zeta in *.
      pose proof (leadsLoop_fault (Js.or_str_default filterParam "all") (k :: rest) []
                    {| store := s; faults := f; log := l |}) as Hfault.
      destruct (leadsLoop _ _ _ _) as [[ls| |] w']; cbn [fst snd] in *.
      * repeat split; eauto; try discriminate.
        intros i Hi Hf. destruct i as [|j]; [discriminate|].
        cbn in Hf. specialize (Hfault j ltac:(cbn in *; lia) Hf). discriminate.
      * repeat split; eauto; discriminate.
      * destruct Ho as [[? ?]|?]; discriminate.
Qed.

Lemma X19_witness :
  fst (GET_leads None faulty_world1) = Ret (LeadsError 500 "Failed to fetch leads")
  /\ fst (GET_leads (Some "hot") world0) = Ret (LeadsJson []).
Proof.
  split.
  - apply (X19_leads_failure_is_reported None faulty_world1) with (i := 1%nat).
    + vm_compute. lia.
    + reflexivity.
  - apply (X19_leads_failure_is_reported (Some "hot") world0).
    + reflexivity.
    + discriminate.
Defined.

(** ** [DELETE /api/leads] *)

Lemma lead_key_not_ids (i : string) : String.eqb (lead_key i) "leads:ids" = false.
Proof. reflexivity. Qed.

Lemma deleteLoop_nofault (l : list Request) (leadIds : list string) :
  forall s : Store,
    exists m,
      deleteLoop leadIds {| store := s; faults := []; log := l |}
      = (Ret tt, {| store := {| kv := m; ids := ids s |}; faults := []; log := l |})
      /\ (forall i, In i leadIds -> m !! lead_key i = None)
      /\ (forall k, (forall i, In i leadIds -> k <> lead_key i) -> m !! k = kv s !! k).
Proof.
  induction leadIds as [|i rest IH]; intros s; cbn [deleteLoop].
  - exists (kv s). unfold ret. repeat split; [now destruct s | contradiction].
  - unfold bind, kv_del, kv_call. cbn [store faults log].
    rewrite lead_key_not_ids.
    destruct (IH {| kv := delete (lead_key i) (kv s); ids := ids s |})
      as (m & Hrun & Hgone & Hkept).
    exists m. cbn [kv ids] in *. split; [exact Hrun|]. split.
    + intros j [<-|Hj]; [|now apply Hgone].
      destruct (in_dec string_dec i rest) as [Hin|Hnot]; [now apply Hgone|].
      rewrite Hkept; [apply lookup_delete_eq|].
      intros j Hj E. apply lead_key_inj in E. congruence.
    + intros k Hk. rewrite Hkept by (intros j Hj; apply Hk; now right).
      apply lookup_delete_ne. intros E. apply (Hk i); [now left | now symmetry].
Qed.

Lemma deleteLoop_any (leadIds : list string) :
  forall w : World,
    let r := deleteLoop leadIds w in
    ids (store (snd r)) = ids (store w)
    /\ (forall k v, kv (store (snd r)) !! k = Some v -> kv (store w) !! k = Some v)
    /\ (fst r = Ret tt \/ fst r = Throw)
    /\ (fst r = Ret tt ->
        forall i, In i leadIds -> kv (store (snd r)) !! lead_key i = None).
Proof.
  induction leadIds as [|i rest IH]; intros [s f l]; cbn zeta; cbn [deleteLoop].
  - unfold ret. cbn. repeat split; auto. intros _ i [].
  - unfold bind, kv_del, kv_call. cbn [store faults log].
    rewrite lead_key_not_ids.
    assert (Hstep : forall f',
               let r := deleteLoop rest
                          {| store := {| kv := delete (lead_key i) (kv s);
                                         ids := ids s |};
                             faults := f'; log := l |} in
               ids (store (snd r)) = ids s
               /\ (forall k v, kv (store (snd r)) !! k = Some v -> kv s !! k = Some v)
               /\ (fst r = Ret tt \/ fst r = Throw)
               /\ (fst r = Ret tt ->
                   forall j, In j (i :: rest) ->
                             kv (store (snd r)) !! lead_key j = None)).
    { intros f'. cbn zeta.
      destruct (IH {| store := {| kv := delete (lead_key i) (kv s); ids := ids s |};
                      faults := f'; log := l |}) as (Hi & Hsub & Ho & Hgone).
      cbn zeta in *. cbn [store kv ids] in *.
      repeat split; [exact Hi| |exact Ho|].
      - intros k v Hk. apply Hsub in Hk.
        rewrite lookup_delete in Hk. now case_decide.
      - intros Hr j [<-|Hj]; [|now apply Hgone].
        destruct (kv (store (snd (deleteLoop rest _))) !! lead_key i) as [v|] eqn:E;
          [|reflexivity].
        apply Hsub in E. now rewrite lookup_delete_eq in E. }
    destruct f as [|[] f]; cbn [fst snd store].
    + apply Hstep.
    + cbn. repeat split; auto. discriminate.
    + apply Hstep.
Qed.

Lemma classic_listed (k : string) (leadIds : list string) :
  (exists i, In i leadIds /\ k = lead_key i)
  \/ (forall i, In i leadIds -> k <> lead_key i).
Proof.
  induction leadIds as [|j rest IH].
  - right. intros i [].
  - destruct (decide (k = lead_key j)) as [->|Hne].
    + left. exists j. split; [now left | reflexivity].
    + destruct IH as [(i & Hi & ->)|Hno].
      * left. exists i. split; [now right | reflexivity].
      * right. intros i [<-|Hi]; [assumption | now apply Hno].
Qed.

Lemma DELETE_leads_nofault (w : World) :
  faults w = [] ->
  exists m,
    DELETE_leads w
    = (Ret (ClearJson true),
       {| store := {| kv := m; ids := [] |}; faults := []; log := log w |})
    /\ (forall i, In i (ids (store w)) -> m !! lead_key i = None)
    /\ (forall k, (forall i, In i (ids (store w)) -> k <> lead_key i) ->
                  m !! k = kv (store w) !! k).
Proof.
  destruct w as [s f l]. cbn [faults store log]. intros ->.
  unfold DELETE_leads, try_catch, bind, kv_smembers, kv_call.
  cbn [store faults log].
  destruct (deleteLoop_nofault l (ids s) s) as (m & Hrun & Hgone & Hkept).
  exists m. rewrite Hrun. unfold kv_del, kv_call, ret. cbn. auto.
Qed.

Lemma cleared_all_listed (s : Store) (m : gmap string Lead) :
  all_listed s ->
  (forall i, In i (ids s) -> m !! lead_key i = None) ->
  (forall k, (forall i, In i (ids s) -> k <> lead_key i) -> m !! k = kv s !! k) ->
  m = ∅.
Proof.
  intros Hall Hgone Hkept. apply map_eq. intros k. rewrite lookup_empty.
  destruct (m !! k) as [v|] eqn:E; [|reflexivity].
  assert (Hk : is_Some (kv s !! k)).
  { destruct (kv s !! k) as [v'|] eqn:E'; [eauto|].
    exfalso. destruct (classic_listed k (ids s)) as [(i & Hi & ->)|Hno].
    - rewrite (Hgone i Hi) in E. discriminate.
    - rewrite (Hkept k Hno) in E. congruence. }
  destruct (Hall k Hk) as (i & Hi & ->). rewrite (Hgone i Hi) in E. discriminate.
Qed.

(** X20: with a healthy storage the clear handler answers success,
    empties the id set and removes the value of every listed id; a value
    whose id is not listed stays.  When every stored value is listed the
    store ends empty. *)
Theorem X20_clear_removes_listed (w : World) :
  faults w = [] ->
  let r := DELETE_leads w in
  fst r = Ret (ClearJson true)
  /\ ids (store (snd r)) = []
  /\ (forall i, In i (ids (store w)) -> kv (store (snd r)) !! lead_key i = None)
  /\ (forall k, (forall i, In i (ids (store w)) -> k <> lead_key i) ->
                kv (store (snd r)) !! k = kv (store w) !! k)
  /\ (all_listed (store w) ->
      snd r = {| store := empty_store; faults := []; log := log w |}).
Proof.
  intros Hf. cbn zeta.
  destruct (DELETE_leads_nofault w Hf) as (m & Hrun & Hgone & Hkept).
  rewrite Hrun. cbn [fst snd store kv ids].
  split; [reflexivity|]. split; [reflexivity|].
  split; [exact Hgone|]. split; [exact Hkept|].
  intros Hall. unfold empty_store.
  now rewrite (cleared_all_listed (store w) m Hall Hgone Hkept).
Qed.

Lemma tie_world_all_listed : all_listed (store tie_world).
Proof.
  intros k [v Hv].
  destruct (decide (k = lead_key "ChIJ-plumber-2")) as [->|H2];
    [exists "ChIJ-plumber-2"; split; [vm_compute; auto | reflexivity]|].
  destruct (decide (k = lead_key "ChIJ-plumber-1")) as [->|H1];
    [exists "ChIJ-plumber-1"; split; [vm_compute; auto | reflexivity]|].
  exfalso. revert Hv.
  change (kv (store tie_world))
    with (<[lead_key "ChIJ-plumber-1" :=
              buildLead plumber_place plumber_details "plumbers" "Houston" "TX"
                "2026-01-05"]>
            (<[lead_key "ChIJ-plumber-2" :=
                 buildLead plumber_place_again plumber_details "plumbers" "Houston"
                   "TX" "2026-01-05"]> (∅ : gmap string Lead))).
  rewrite !lookup_insert_ne by congruence. rewrite lookup_empty. discriminate.
Qed.

Lemma X20_witness :
  let r := DELETE_leads tie_world in
  fst r = Ret (ClearJson true)
  /\ ids (store (snd r)) = []
  /\ kv (store (snd r)) !! lead_key "ChIJ-plumber-1" = None
  /\ snd r = {| store := empty_store; faults := []; log := log tie_world |}.
Proof.
  destruct (X20_clear_removes_listed tie_world eq_refl) as (Hr & Hi & Hgone & _ & Hall).
  cbn zeta. split; [exact Hr|]. split; [exact Hi|]. split.
  - apply Hgone. vm_compute. auto.
  - apply Hall. exact tie_world_all_listed.
Defined.

(** X21: whichever storage calls fail, the clear handler only removes
    values, and it answers either success, with the id set empty and every
    listed value gone, or the error 500, with the id set as it was: the id
    set is deleted last, so after a failure the remaining leads are still
    listed. *)
Theorem X21_clear_under_faults (w : World) :
  let r := DELETE_leads w in
  (forall k v, kv (store (snd r)) !! k = Some v -> kv (store w) !! k = Some v)
  /\ ((fst r = Ret (ClearJson true)
       /\ ids (store (snd r)) = []
       /\ forall i, In i (ids (store w)) -> kv (store (snd r)) !! lead_key i = None)
      \/ (fst r = Ret (ClearError 500 "Failed to clear leads")
          /\ ids (store (snd r)) = ids (store w))).
Proof.
  destruct w as [s f l]. cbn zeta.
  unfold DELETE_leads, try_catch, bind, kv_smembers, kv_call.
  cbn [store faults log].
  assert (Hrest : forall f',
             let r := match
                        (match deleteLoop (ids s)
                                 {| store := s; faults := f'; log := l |} with
                         | (Ret _, w') =>
                             match kv_del "leads:ids" w' with
                             | (Ret _, w'0) => ret (ClearJson true) w'0
                             | (Throw, w'0) => (Throw, w'0)
                             | (Diverge, w'0) => (Diverge, w'0)
                             end
                         | (Throw, w') => (Throw, w')
                         | (Diverge, w') => (Diverge, w')
                         end) with
                      | (Throw, w') => ret (ClearError 500 "Failed to clear leads") w'
                      | r0 => r0
                      end in
             (forall k v, kv (store (snd r)) !! k = Some v -> kv s !! k = Some v)
             /\ ((fst r = Ret (ClearJson true)
                  /\ ids (store (snd r)) = []
                  /\ forall i, In i (ids s) -> kv (store (snd r)) !! lead_key i = None)
                 \/ (fst r = Ret (ClearError 500 "Failed to clear leads")
                     /\ ids (store (snd r)) = ids s))).
  { intros f'. cbn zeta.
    destruct (deleteLoop_any (ids s) {| store := s; faults := f'; log := l |})
      as (Hi & Hsub & Ho & Hgone).
    cbn zeta in *. cbn [store] in *.
    destruct (deleteLoop _ _) as [[[]| |] [s1 f1 l1]]; cbn [fst snd store] in *.
    - unfold kv_del, kv_call, ret. cbn [store faults log String.eqb Ascii.eqb Bool.eqb].
      destruct f1 as [|[] f1]; cbn [fst snd store kv ids].
      + split; [exact Hsub|]. left. repeat split. now apply Hgone.
      + split; [exact Hsub|]. right. split; [reflexivity|exact Hi].
      + split; [exact Hsub|]. left. repeat split. now apply Hgone.
    - unfold ret. cbn. split; [exact Hsub|]. right. split; [reflexivity|exact Hi].
    - destruct Ho; discriminate. }
  destruct f as [|[] f]; cbn [fst snd store].
  - apply Hrest.
  - unfold ret. cbn. split; [auto|]. right. auto.
  - apply Hrest.
Qed.

Lemma X21_witness :
  fst (DELETE_leads clear_fault_world) = Ret (ClearError 500 "Failed to clear leads")
  /\ ids (store (snd (DELETE_leads clear_fault_world))) = ids (store clear_fault_world)
  /\ kv (store (snd (DELETE_leads clear_fault_world))) !! lead_key "ChIJ-plumber-2"
     = None
  /\ is_Some (kv (store (snd (DELETE_leads clear_fault_world)))
                !! lead_key "ChIJ-plumber-1").
Proof.
  destruct (X21_clear_under_faults clear_fault_world) as [_ [(Hr & _)|(Hr & Hi)]].
  - vm_compute in Hr. discriminate Hr.
  - split; [exact Hr|]. split; [exact Hi|]. split; [reflexivity|].
    eexists. reflexivity.
Defined.

(** X22: once the clear handler has answered success on a store in which
    every value was listed, a healthy storage shows nothing: the stats are
    all zero, the leads handler returns the empty list under every filter,
    and the export is the header row alone. *)
Theorem X22_after_clear_nothing_shows (w : World) (today : string)
    (filterParam : option string) :
  faults w = [] ->
  all_listed (store w) ->
  let w' := snd (DELETE_leads w) in
  fst (GET_stats today w') = Ret (StatsJson 0 0 0 0)
  /\ fst (GET_leads filterParam w') = Ret (LeadsJson [])
  /\ fst (GET_export w') = Ret (CsvBody (join "," headers)).
Proof.
  intros Hf Hall. cbn zeta.
  destruct (DELETE_leads_nofault w Hf) as (m & Hrun & Hgone & Hkept).
  rewrite Hrun. cbn [snd].
  rewrite (cleared_all_listed (store w) m Hall Hgone Hkept).
  repeat split.
Qed.

Lemma X22_witness :
  fst (GET_stats "2026-01-05" (snd (DELETE_leads tie_world))) = Ret (StatsJson 0 0 0 0)
  /\ fst (GET_leads (Some "hot") (snd (DELETE_leads tie_world))) = Ret (LeadsJson [])
  /\ fst (GET_export (snd (DELETE_leads tie_world))) = Ret (CsvBody (join "," headers)).
Proof.
  apply (X22_after_clear_nothing_shows tie_world "2026-01-05" (Some "hot")).
  - reflexivity.
  - exact tie_world_all_listed.
Defined.

(** ** Failures of the export *)

Lemma loadLeads_fault (leadIds : list string) :
  forall (acc : list Lead) (w : World) (i : nat),
    (i < length leadIds)%nat ->
    faults w !! i = Some true ->
    fst (loadLeads leadIds acc w) = Throw.
Proof.
  induction leadIds as [|k rest IH]; intros acc [s f l] i Hi Hf; cbn in Hi; [lia|].
  cbn [loadLeads]. unfold bind, kv_get, kv_call. cbn [store faults log] in *.
  destruct f as [|b f]; [discriminate|].
  destruct b; [reflexivity|].
  destruct i as [|j]; [discriminate|]. cbn in Hf.
  destruct (kv s !! lead_key k); apply (IH _ _ j); cbn; solve [lia | assumption].
Qed.

(** X23: the export always answers, with a CSV text or with the error
    500; any storage call rejected while it reads gives the error, and an
    empty id set gives the header row alone. *)
Theorem X23_export_failure_is_reported (w : World) :
  let r := GET_export w in
  ((exists csv, fst r = Ret (CsvBody csv))
   \/ fst r = Ret (ErrorJson 500 "Export failed"))
  /\ (forall i, (i <= length (ids (store w)))%nat -> faults w !! i = Some true ->
                fst r = Ret (ErrorJson 500 "Export failed"))
  /\ (ids (store w) = [] -> faults w !! 0%nat <> Some true ->
      fst r = Ret (CsvBody (join "," headers))).
Proof.
  destruct w as [s f l]. cbn zeta.
  unfold GET_export, try_catch, bind, kv_smembers, kv_call, ret.
  cbn [store faults log].
  assert (Hloop : forall f',
             let r0 := loadLeads (ids s) [] {| store := s; faults := f'; log := l |} in
             ((exists ls, fst r0 = Ret ls) \/ fst r0 = Throw)
             /\ (ids s = [] -> fst r0 = Ret [])).
  { intros f'. cbn zeta.
    destruct (loadLeads_store (ids s) [] {| store := s; faults := f'; log := l |})
      as [_ Hd].
    split.
    - destruct (loadLeads _ _ _) as [[ls| |] w']; cbn in *; eauto. now elim Hd.
    - intros ->. reflexivity. }
  destruct f as [|[] f]; cbn [fst snd store faults].
  - destruct (Hloop []) as [Ho He]. cbn zeta in *.
    destruct (loadLeads _ _ _) as [[ls| |] w']; cbn [fst snd] in *.
    + repeat split; eauto; try discriminate.
      intros E _. specialize (He E). now inversion He.
    + repeat split; eauto; try discriminate. intros E _. specialize (He E). discriminate.
    + destruct Ho as [[? ?]|?]; discriminate.
  - cbn. repeat split; eauto. intros _ H. now elim H.
  - destruct (Hloop f) as [Ho He]. cbn zeta in *.
    pose proof (loadLeads_fault (ids s) []
                  {| store := s; faults := f; log := l |}) as Hfault.
    destruct (loadLeads _ _ _) as [[ls| |] w']; cbn [fst snd] in *.
    + repeat split; eauto; try discriminate.
      * intros i Hi Hf. destruct i as [|j]; [discriminate|].
        cbn in Hf. specialize (Hfault j ltac:(lia) Hf). discriminate.
      * intros E _. specialize (He E). now inversion He.
    + repeat split; eauto; try discriminate. intros E _. specialize (He E). discriminate.
    + destruct Ho as [[? ?]|?]; discriminate.
Qed.

Lemma X23_witness :
  fst (GET_export faulty_world1) = Ret (ErrorJson 500 "Export failed")
  /\ fst (GET_export world0) = Ret (CsvBody (join "," headers)).
Proof.
  split.
  - apply (X23_export_failure_is_reported faulty_world1) with (i := 1%nat).
    + vm_compute. lia.
    + reflexivity.
  - apply (X23_export_failure_is_reported world0).
    + reflexivity.
    + discriminate.
Defined.

(** ** The details requests of one page *)

Lemma processPlace_log (src : Source) (niche0 city0 state0 today : string)
    (place : PlaceObj) (leads : list Lead) (w : World) :
  log (snd (processPlace src niche0 city0 state0 today place leads w))
  = log w ++ [ReqDetails (place_id place)].
Proof.
  rewrite processPlace_unfold. cbn zeta.
  destruct (place_details _ _ _) as [dd|]; [|reflexivity].
  destruct (String.eqb (d_status dd) "OK" && qualifies (d_result dd)); [|reflexivity].
  now destruct (upsert_frame
                  (buildLead place (d_result dd) niche0 city0 state0 today) leads
                  (logged w (ReqDetails (place_id place)))) as (_ & _ & _ & ->).
Qed.

(** X24: within one page the handler asks for the details of the results
    in the order of the page, one request per result and nothing else; it
    stops at some result, and when the page ends with fewer leads than the
    limit every result has been asked for. *)
Theorem X24_details_in_page_order (src : Source) (niche0 city0 state0 today : string)
    (limit : JsNum) (places : list PlaceObj) :
  forall (leads : list Lead) (w : World),
    let r := forPlaces src niche0 city0 state0 today limit places leads w in
    exists k : nat,
      (k <= length places)%nat
      /\ log (snd r)
         = log w ++ map (fun p => ReqDetails (place_id p)) (take k places)
      /\ (forall ls, fst r = Ret ls -> num_ge (Z.of_nat (length ls)) limit = false ->
                     k = length places).
Proof.
  induction places as [|place rest IH]; intros leads w; cbn zeta; cbn [forPlaces].
  - exists 0%nat. unfold ret. cbn. rewrite app_nil_r. auto.
  - destruct (num_ge (Z.of_nat (length leads)) limit) eqn:Hge.
    + exists 0%nat. unfold ret. cbn. rewrite app_nil_r.
      repeat split; [lia|]. intros ls [= <-] Hroom. congruence.
    + unfold bind.
      pose proof (processPlace_log src niche0 city0 state0 today place leads w) as Hlog.
      destruct (processPlace _ _ _ _ _ _ _ _) as [[leads'| |] w1]; cbn [fst snd] in *.
      * destruct (IH leads' w1) as (k & Hk & Hl & Hall). cbn zeta in *.
        exists (S k). cbn [length take map]. split; [lia|]. split.
        -- rewrite Hl, Hlog, <- app_assoc. reflexivity.
        -- intros ls Hr Hlt. now rewrite (Hall ls Hr Hlt).
      * exists 1%nat. cbn [length take map]. rewrite take_0.
        repeat split; [lia|exact Hlog|discriminate].
      * exists 1%nat. cbn [length take map]. rewrite take_0.
        repeat split; [lia|exact Hlog|discriminate].
Qed.

Lemma X24_witness :
  exists k : nat,
    (k <= 2)%nat
    /\ log tie_world
       = map (fun p => ReqDetails (place_id p))
           (take k [plumber_place_again; plumber_place])
    /\ k = 2%nat.
Proof.
  destruct (X24_details_in_page_order (details_source plumber_details)
              "plumbers" "Houston" "TX" "2026-01-05" (Fin 100)
              [plumber_place_again; plumber_place] [] world0)
    as (k & Hk & Hl & Hall).
  exists k. split; [exact Hk|]. split; [exact Hl|].
  apply (Hall [demo_lead_again; demo_lead]); [reflexivity|].
  vm_compute. reflexivity.
Defined.
